(** * cudf column copying: the Cython bindings of [_libxx/copying.pyx]
    and the error utilities, as a shallow embedding.

    Layout of the development:
    - exceptions and the outcome of a call;
    - the error utilities ([CUDF_EXPECTS], [CUDA_TRY], [check_stream]);
    - columns, tables, scalars, and the store of Python [Column] objects;
    - the libcudf kernels reached through [cpp_copying];
    - the Python-level functions of [copying.pyx];
    - the properties. *)

From stdpp Require Import base numbers list strings pretty.

Local Open Scope Z_scope.

(* ===================================================================== *)
(** * Exceptions and outcomes *)
(* ===================================================================== *)

(** Python-level exceptions raised by the bindings themselves. *)
Inductive py_exception :=
  | AssertionError
  | TypeError
  | OverflowError
  | AttributeError.

(** [cudf::logic_error] and [cudf::cuda_error] carry their [what()] string. *)
Inductive exn :=
  | logic_error (what : string)
  | cuda_error (what : string)
  | py_error (e : py_exception).

(** A call returns, raises, or (on an unchecked path) has no defined
    behaviour. *)
Inductive outcome (A : Type) :=
  | Ok (a : A)
  | Raise (e : exn)
  | Undefined.
Arguments Ok {A} a.
Arguments Raise {A} e.
Arguments Undefined {A}.

Definition outcome_bind {A B} (f : A → outcome B) (m : outcome A) : outcome B :=
  match m with
  | Ok a => f a
  | Raise e => Raise e
  | Undefined => Undefined
  end.

#[global] Instance outcome_ret : MRet outcome := λ A a, Ok a.
#[global] Instance outcome_mbind : MBind outcome := λ A B f m, outcome_bind f m.

Definition is_logic_error (e : exn) : bool :=
  match e with logic_error _ => true | _ => false end.
Definition is_cuda_error (e : exn) : bool :=
  match e with cuda_error _ => true | _ => false end.
Definition what (e : exn) : string :=
  match e with
  | logic_error w | cuda_error w => w
  | py_error _ => ""
  end.

(* ===================================================================== *)
(** * Error utilities *)
(* ===================================================================== *)

(** [cudaError_t]: the fault code; [cudaSuccess] is zero. *)
Definition cudaError_t := Z.
Definition cudaSuccess : cudaError_t := 0.

(** What a macro does with the CUDA runtime before it returns or throws. *)
Inductive runtime_event :=
  | StreamSynchronize (stream : nat)
  | GetLastError.

(** The uses of the error utilities that can raise: [CUDF_EXPECTS(cond,
    reason)], [CUDA_TRY(call)] with the status the call returned, and
    [check_stream(stream, ...)], each expanded at a source location. *)
Inductive raising_macro :=
  | expects_at (file : string) (line : N) (cond : bool) (reason : string)
  | cuda_try_at (file : string) (line : N) (status : cudaError_t)
  | check_stream_at (file : string) (line : N) (stream : nat).

Section errorutils.
(** The CUDA runtime is external: its name and message tables, and the
    state it keeps for the streams. *)
Variable cudaGetErrorName : cudaError_t → string.
Variable cudaGetErrorString : cudaError_t → string.
Variable runtime : Type.
Variable cudaStreamSynchronize : nat → runtime → runtime * cudaError_t.
Variable cudaGetLastError : runtime → runtime * cudaError_t.

(** ["cuDF failure at: " __FILE__ ":" CUDF_STRINGIFY(__LINE__) ": " reason] *)
Definition logic_error_message (file : string) (line : N) (reason : string)
    : string :=
  "cuDF failure at: " +:+ file +:+ ":" +:+ pretty line +:+ ": " +:+ reason.

(** [CUDF_EXPECTS(cond, reason)] expanded at [file]:[line]. *)
Definition CUDF_EXPECTS (file : string) (line : N) (cond : bool)
    (reason : string) : outcome unit :=
  if cond then Ok tt
  else Raise (logic_error (logic_error_message file line reason)).

Definition cuda_error_message (error : cudaError_t) (file : string) (line : N)
    : string :=
  "CUDA error encountered at: " +:+ file +:+ ":" +:+ pretty line +:+ ": "
    +:+ pretty error +:+ " " +:+ cudaGetErrorName error +:+ " "
    +:+ cudaGetErrorString error.

Definition throw_cuda_error {A} (error : cudaError_t) (file : string)
    (line : N) : outcome A :=
  Raise (cuda_error (cuda_error_message error file line)).

(** [check_stream]: the runtime state after the call, the runtime calls
    made, and the outcome. *)
Definition check_stream (stream : nat) (file : string) (line : N)
    (rt : runtime) : runtime * list runtime_event * outcome unit :=
  let '(rt1, error) := cudaStreamSynchronize stream rt in
  if negb (cudaSuccess =? error) then
    (rt1, [StreamSynchronize stream], throw_cuda_error error file line)
  else
    let '(rt2, error) := cudaGetLastError rt1 in
    if negb (cudaSuccess =? error) then
      (rt2, [StreamSynchronize stream; GetLastError],
       throw_cuda_error error file line)
    else (rt2, [StreamSynchronize stream; GetLastError], Ok tt).

(** [CUDA_TRY(call)] expanded at [file]:[line], [status] being what the
    call returned; the macro itself makes no further runtime call. *)
Definition CUDA_TRY (status : cudaError_t) (file : string) (line : N)
    : list runtime_event * outcome unit :=
  if negb (cudaSuccess =? status) then ([], throw_cuda_error status file line)
  else ([], Ok tt).

(** [CHECK_STREAM(stream)]: present in non-release builds only. *)
Definition CHECK_STREAM (NDEBUG : bool) (stream : nat) (file : string)
    (line : N) (rt : runtime) : runtime * list runtime_event * outcome unit :=
  if NDEBUG then (rt, [], Ok tt) else check_stream stream file line rt.

Definition run_macro (m : raising_macro) (rt : runtime)
    : runtime * list runtime_event * outcome unit :=
  match m with
  | expects_at file line cond reason =>
      (rt, [], CUDF_EXPECTS file line cond reason)
  | cuda_try_at file line status =>
      let '(events, o) := CUDA_TRY status file line in (rt, events, o)
  | check_stream_at file line stream => check_stream stream file line rt
  end.

(** The two classes as the specification words them: whatever the error
    utilities raise is a logic error raised on the spot, before anything
    is asked of the device runtime, or a device error that comes with a
    synchronization of the stream. *)
Definition two_classes_as_stated : Prop :=
  ∀ m rt rt' events e,
    run_macro m rt = (rt', events, Raise e) →
    (is_logic_error e = true ∧ events = [])
    ∨ (is_cuda_error e = true ∧ ∃ stream, StreamSynchronize stream ∈ events).
End errorutils.

(* ===================================================================== *)
(** * Data model *)
(* ===================================================================== *)

Inductive dtype := INT8 | INT16 | INT32 | INT64 | BOOL8.

#[global] Instance dtype_eq_dec : EqDecision dtype.
Proof. solve_decision. Defined.

(** [pd.api.types.is_integer_dtype]: booleans are not integers. *)
Definition is_integer_dtype (d : dtype) : bool :=
  match d with BOOL8 => false | _ => true end.

(** One element of a nullable column: [None] is null. *)
Abbreviation element := (option Z) (only parsing).

(** A column as libcudf sees it through a view: element type and the
    elements with their validity. *)
Record column_view := mk_column_view {
  cv_type : dtype;
  cv_data : list element
}.

#[global] Instance column_view_inhabited : Inhabited column_view :=
  populate (mk_column_view INT8 []).

Definition cv_size (c : column_view) : Z := Z.of_nat (length (cv_data c)).

(** A table view: the ordered columns. *)
Abbreviation table_view := (list column_view) (only parsing).

Definition num_rows (t : table_view) : Z :=
  match t with
  | [] => 0
  | c :: _ => cv_size c
  end.

Record scalar := mk_scalar {
  s_type : dtype;
  s_value : element
}.

Definition is_valid (s : scalar) : bool := bool_decide (is_Some (s_value s)).

(** ** [size_type]: a 32-bit signed integer *)

Definition size_type_min : Z := - 2 ^ 31.
Definition size_type_max : Z := 2 ^ 31 - 1.

Definition in_size_type (z : Z) : bool :=
  (size_type_min <=? z) && (z <=? size_type_max).

(** C arithmetic on [size_type] wraps around. *)
Definition wrap_size_type (z : Z) : Z := (z + 2 ^ 31) mod 2 ^ 32 - 2 ^ 31.

(** Conversion of a Python integer to a [size_type] argument or variable. *)
Definition to_size_type (z : Z) : outcome Z :=
  if in_size_type z then Ok z else Raise (py_error OverflowError).

(* ===================================================================== *)
(** * Python objects and the store *)
(* ===================================================================== *)

(** A Python [Column] object is known by its identity; the store holds
    the storage each one owns. *)
Abbreviation Column := nat (only parsing).
Abbreviation store := (list column_view) (only parsing).

Record Index := mk_Index {
  ix_column_names : list string;
  ix_columns : list Column
}.

Record Table := mk_Table {
  _index : option Index;
  _column_names : list string;
  _columns : list Column
}.

Inductive pyobject :=
  | PyNone
  | PyColumn (c : Column)
  | PyTable (t : Table).

(** Computations of the bindings: they read and update the store and end
    in an outcome. *)
Definition Py (A : Type) : Type := store → store * outcome A.

#[global] Instance Py_ret : MRet Py := λ A a st, (st, Ok a).
#[global] Instance Py_bind : MBind Py := λ A B f m st,
  match m st with
  | (st', Ok a) => f a st'
  | (st', Raise e) => (st', Raise e)
  | (st', Undefined) => (st', Undefined)
  end.

Definition lift {A} (o : outcome A) : Py A := λ st, (st, o).
Definition py_raise {A} (e : py_exception) : Py A := lift (Raise (py_error e)).

(** Modelled from the spec: [Column.view()] (class [Column] is absent
    from the sources): the typed, nullable storage behind the object
    (§3). *)
Definition Column_view (c : Column) : Py column_view :=
  λ st, (st, Ok (st !!! c)).

(** Modelled from the spec: [Column.size] and [Column.dtype] (class
    [Column] is absent from the sources): the row count and the element
    type of the column (§3). *)
Definition Column_size (c : Column) : Py Z :=
  v ← Column_view c; mret (cv_size v).
Definition Column_dtype (c : Column) : Py dtype :=
  v ← Column_view c; mret (cv_type v).

(** Modelled from the spec: [Column.from_unique_ptr] (class [Column] is
    absent from the sources): a new object owning the storage of a
    primitive's output (§3, lifecycle). *)
Definition Column_from_unique_ptr (v : column_view) : Py Column :=
  λ st, (st ++ [v], Ok (length st)).

(** Modelled from the spec: writing through [Column.mutable_view()]
    (class [Column] is absent from the sources): an in-place operation
    mutates the existing storage of the object (§3, §4.2). *)
Definition Column_store (c : Column) (v : column_view) : Py unit :=
  λ st, (<[c := v]> st, Ok tt).

(* ===================================================================== *)
(** * The libcudf kernels behind [cpp_copying] *)
(* ===================================================================== *)

Module cpp_copying.

(** Modelled from the spec: the precondition checks of the libcudf
    kernels (the kernels are absent from the sources); a violated
    precondition is a logic error raised through [CUDF_EXPECTS], here
    at one placeholder location standing for the kernels' own. *)
Definition expects (cond : bool) (reason : string) : outcome unit :=
  CUDF_EXPECTS "cudf/copying" 0 cond reason.

(** Modelled from the spec: negative-index wraparound of gather and
    scatter maps (§4.3): a negative index [k] maps to [size + k]. *)
Definition wrap_index (n k : Z) : Z := if k <? 0 then k + n else k.

Definition in_bounds (n k : Z) : bool := (0 <=? k) && (k <? n).

(** Modelled from the spec: the entries of an index map, which is an
    integer column (§4.3) holding an index in every row. *)
Definition map_entries (m : column_view) : outcome (list Z) :=
  expects (is_integer_dtype (cv_type m)) "index map must be of integer type";;
  expects (forallb (λ e : element, bool_decide (is_Some e)) (cv_data m))
          "index map must not contain nulls";;
  mret (default 0 <$> cv_data m).

Definition same_types (a b : table_view) : bool :=
  bool_decide (cv_type <$> a = cv_type <$> b).

(** Modelled from the spec: the column constructor from a view used by
    [copy_column] (§4.2): a deep duplicate of values and validity. *)
Definition column_of_view (v : column_view) : column_view := v.

(** Modelled from the spec: libcudf [copy_range] (§4.2): a full copy
    of the target with the elements from [target_begin] on overwritten
    by [input_begin, input_end) of the input. *)
Definition copy_range (input target : column_view)
    (input_begin input_end target_begin : Z) : outcome column_view :=
  expects (bool_decide (cv_type input = cv_type target))
          "element types of source and target must match";;
  expects ((0 <=? input_begin) && (input_begin <=? input_end)
             && (input_end <=? cv_size input))
          "source range out of bounds";;
  expects ((0 <=? target_begin)
             && (target_begin + (input_end - input_begin) <=? cv_size target))
          "target range out of bounds";;
  mret (mk_column_view (cv_type target)
          (take (Z.to_nat target_begin) (cv_data target)
           ++ take (Z.to_nat (input_end - input_begin))
                   (drop (Z.to_nat input_begin) (cv_data input))
           ++ drop (Z.to_nat (target_begin + (input_end - input_begin)))
                   (cv_data target))).

(** Modelled from the spec: libcudf [copy_range_in_place] (§4.2): the
    same range copy, written into the storage behind the mutable view
    of the target. *)
Definition copy_range_in_place (input : column_view) (target : Column)
    (input_begin input_end target_begin : Z) : Py unit :=
  target_view ← Column_view target;
  result ← lift (copy_range input target_view input_begin input_end target_begin);
  Column_store target result.

(** Modelled from the spec: libcudf [gather] (§4.3): output row [i] is
    a copy of the source row at the wrapped index [gather_map[i]]; an
    index out of bounds after wraparound is a fatal error. *)
Definition gather_column (idx : list Z) (c : column_view) : column_view :=
  mk_column_view (cv_type c) ((λ k, cv_data c !!! Z.to_nat k) <$> idx).

Definition gather (source_table : table_view) (gather_map : column_view)
    : outcome table_view :=
  entries ← map_entries gather_map;
  let idx := wrap_index (num_rows source_table) <$> entries in
  if forallb (in_bounds (num_rows source_table)) idx
  then mret (gather_column idx <$> source_table)
  else Raise (cuda_error "gather: index out of range").

(** Modelled from the spec: the bounds policy of libcudf [scatter]
    (§4.4, §7): with the check every wrapped index must lie in
    [0, rows) or the call fails; without it an index out of range is
    undefined behaviour. *)
Definition check_indices (bounds_check : bool) (n : Z) (idx : list Z)
    : outcome unit :=
  if forallb (in_bounds n) idx then Ok tt
  else if bounds_check then Raise (cuda_error "scatter: index out of range")
  else Undefined.

(** Row [idx[i]] of the target takes the [i]-th source element. *)
Fixpoint scatter_rows (idx : list Z) (src tgt : list element) : list element :=
  match idx, src with
  | k :: idx, v :: src => scatter_rows idx src (<[Z.to_nat k := v]> tgt)
  | _, _ => tgt
  end.

Definition scatter_column (idx : list Z) (s t : column_view) : column_view :=
  mk_column_view (cv_type t) (scatter_rows idx (cv_data s) (cv_data t)).

(** Modelled from the spec: libcudf [scatter], table form (§4.4): a
    copy of the target with row [scatter_map[i]] overwritten by source
    row [i]; the map has one entry per source row. *)
Definition scatter (source : table_view) (scatter_map : column_view)
    (target : table_view) (bounds_check : bool) : outcome table_view :=
  expects (bool_decide (length source = length target))
          "number of columns in source and target must match";;
  expects (same_types source target)
          "column types of source and target must match";;
  expects (cv_size scatter_map =? num_rows source)
          "scatter map and source must have the same number of rows";;
  entries ← map_entries scatter_map;
  let idx := wrap_index (num_rows target) <$> entries in
  check_indices bounds_check (num_rows target) idx;;
  mret (zip_with (scatter_column idx) source target).

Definition scatter_scalar_column (idx : list Z) (s : scalar) (t : column_view)
    : column_view :=
  mk_column_view (cv_type t)
    (scatter_rows idx (replicate (length idx) (s_value s)) (cv_data t)).

(** Modelled from the spec: libcudf [scatter], scalar form (§4.4): one
    scalar per target column; every row addressed by the map takes the
    scalar's value and validity. *)
Definition scatter_scalars (source : list scalar) (scatter_map : column_view)
    (target : table_view) (bounds_check : bool) : outcome table_view :=
  expects (bool_decide (length source = length target))
          "number of scalars and of target columns must match";;
  expects (bool_decide (s_type <$> source = cv_type <$> target))
          "scalar types and target column types must match";;
  entries ← map_entries scatter_map;
  let idx := wrap_index (num_rows target) <$> entries in
  check_indices bounds_check (num_rows target) idx;;
  mret (zip_with (scatter_scalar_column idx) source target).

(** A mask entry selects when it is valid and true. *)
Definition mask_true (m : element) : bool :=
  match m with
  | Some b => negb (b =? 0)
  | None => false
  end.

(** The true rows of the target take the successive source elements. *)
Fixpoint mask_scatter_rows (mask src tgt : list element) : list element :=
  match mask, tgt with
  | m :: mask, t :: tgt =>
      if mask_true m then
        match src with
        | v :: src => v :: mask_scatter_rows mask src tgt
        | [] => t :: mask_scatter_rows mask [] tgt
        end
      else t :: mask_scatter_rows mask src tgt
  | _, _ => tgt
  end.

Definition count_true (mask : list element) : Z :=
  Z.of_nat (length (filter (λ m, mask_true m = true) mask)).

Definition mask_scatter_column (mask : list element) (s t : column_view)
    : column_view :=
  mk_column_view (cv_type t) (mask_scatter_rows mask (cv_data s) (cv_data t)).

Definition mask_checks (target : table_view) (mask : column_view)
    : outcome unit :=
  expects (bool_decide (cv_type mask = BOOL8)) "mask must be of boolean type";;
  expects (cv_size mask =? num_rows target)
          "mask and target must have the same number of rows".

(** Modelled from the spec: libcudf [boolean_mask_scatter], table form
    (§4.7): the rows of the target where the mask is true are
    overwritten, in order, by the successive rows of the input, whose
    row count is the number of true entries. *)
Definition boolean_mask_scatter (input target : table_view)
    (boolean_mask : column_view) : outcome table_view :=
  expects (bool_decide (length input = length target))
          "number of columns in input and target must match";;
  expects (same_types input target)
          "column types of input and target must match";;
  mask_checks target boolean_mask;;
  expects (count_true (cv_data boolean_mask) =? num_rows input)
          "number of true mask entries and of input rows must match";;
  mret (zip_with (mask_scatter_column (cv_data boolean_mask)) input target).

Definition mask_fill_column (mask : list element) (s : scalar) (t : column_view)
    : column_view :=
  mk_column_view (cv_type t)
    (zip_with (λ (m t : element), if mask_true m then s_value s else t)
              mask (cv_data t)).

(** Modelled from the spec: libcudf [boolean_mask_scatter], scalar form
    (§4.7): one scalar per column, applied to every true row. *)
Definition boolean_mask_scatter_scalars (input : list scalar)
    (target : table_view) (boolean_mask : column_view) : outcome table_view :=
  expects (bool_decide (length input = length target))
          "number of scalars and of target columns must match";;
  expects (bool_decide (s_type <$> input = cv_type <$> target))
          "scalar types and target column types must match";;
  mask_checks target boolean_mask;;
  mret (zip_with (mask_fill_column (cv_data boolean_mask)) input target).

(** An operand of [copy_if_else]: a column, or a scalar broadcast to
    every row. *)
Inductive operand :=
  | of_column (c : column_view)
  | of_scalar (s : scalar).

Definition operand_type (o : operand) : dtype :=
  match o with of_column c => cv_type c | of_scalar s => s_type s end.

Definition operand_at (o : operand) (i : nat) : element :=
  match o with
  | of_column c => cv_data c !!! i
  | of_scalar s => s_value s
  end.

Definition operand_fits (o : operand) (rows : Z) : bool :=
  match o with of_column c => cv_size c =? rows | of_scalar _ => true end.

(** Modelled from the spec: libcudf [copy_if_else] (§4.6): row [i] is
    [lhs[i]] where the mask is valid and true, else [rhs[i]]. *)
Definition copy_if_else (lhs rhs : operand) (boolean_mask : column_view)
    : outcome column_view :=
  expects (bool_decide (cv_type boolean_mask = BOOL8))
          "mask must be of boolean type";;
  expects (bool_decide (operand_type lhs = operand_type rhs))
          "types of both operands must match";;
  expects (operand_fits lhs (cv_size boolean_mask)
             && operand_fits rhs (cv_size boolean_mask))
          "operands and mask must have the same number of rows";;
  mret (mk_column_view (operand_type lhs)
          (imap (λ i m, if mask_true m then operand_at lhs i else operand_at rhs i)
                (cv_data boolean_mask))).

(** Modelled from the spec: libcudf [shift] (§4.8): element [i] is
    [input[i - offset]] when that index is in range, else the fill
    value, which has the input's type. *)
Definition shift (input : column_view) (offset : Z) (fill_value : scalar)
    : outcome column_view :=
  expects (bool_decide (cv_type input = s_type fill_value))
          "fill value type must match the input type";;
  mret (mk_column_view (cv_type input)
          ((λ i, if in_bounds (cv_size input) (i - offset)
                 then cv_data input !!! Z.to_nat (i - offset)
                 else s_value fill_value)
             <$> seqZ 0 (cv_size input))).

End cpp_copying.

(* ===================================================================== *)
(** * The classes the bindings build on *)
(* ===================================================================== *)

(** Modelled from the spec: the table view built by [Table.view()] and
    [Table.data_view()] (class [Table] is absent from the sources): the
    ordered columns, which all share their row count (§3). *)
Definition same_row_count (t : table_view) : bool :=
  forallb (λ c, cv_size c =? num_rows t) t.

Definition make_table_view (columns : list Column) : Py table_view :=
  λ st,
    let views := (λ c : Column, st !!! c) <$> columns in
    (st, cpp_copying.expects (same_row_count views) "Column size mismatch";;
         mret views).

Definition index_columns (t : Table) : list Column :=
  match _index t with
  | None => []
  | Some ix => ix_columns ix
  end.

(** Modelled from the spec: [Table.view()] (class [Table] is absent from
    the sources): the ordered columns of the table (§3), the index
    columns that the tabular layer keeps coming first. *)
Definition Table_view (t : Table) : Py table_view :=
  make_table_view (index_columns t ++ _columns t).

(** Modelled from the spec: [Table.data_view()] (class [Table] is absent
    from the sources): the ordered data columns of the table (§3). *)
Definition Table_data_view (t : Table) : Py table_view :=
  make_table_view (_columns t).

(** Modelled from the spec: [Table._index_names] and
    [Table._index._column_names] (class [Table] is absent from the
    sources): the names of the index columns; the second is an attribute
    of the index object and fails on a table without index. *)
Definition _index_names (t : Table) : option (list string) :=
  ix_column_names <$> _index t.

Definition _index_column_names (t : Table) : Py (list string) :=
  match _index t with
  | None => py_raise AttributeError
  | Some ix => mret (ix_column_names ix)
  end.

(** Modelled from the spec: the columns released by a result table
    become new [Column] objects, each owning its storage (§3,
    lifecycle). *)
Definition release (columns : list column_view) : Py (list Column) :=
  λ st, (st ++ columns, Ok (seq (length st) (length columns))).

(** Modelled from the spec: [Table.from_unique_ptr] (class [Table] is
    absent from the sources): the result columns become new columns of a
    new table, the first ones its index when index names are given, the
    following ones its data, one per column name. *)
Definition Table_from_unique_ptr (c_tbl : table_view)
    (column_names : list string) (index_names : option (list string)) : Py Table :=
  match index_names with
  | None =>
      data ← release (take (length column_names) c_tbl);
      mret (mk_Table None column_names data)
  | Some names =>
      index ← release (take (length names) c_tbl);
      data ← release (take (length column_names) (drop (length names) c_tbl));
      mret (mk_Table (Some (mk_Index names index)) column_names data)
  end.

(** Modelled from the spec: the [Scalar] constructor (class [Scalar] is
    absent from the sources): a single value of the given type, invalid
    when the value is [None] (§3); without a type a Python integer is
    taken as a 64-bit integer and a null cannot be typed. *)
Definition Scalar (value : element) (dt : option dtype) : Py scalar :=
  match dt, value with
  | Some d, _ => mret (mk_scalar d value)
  | None, Some z => mret (mk_scalar INT64 (Some z))
  | None, None => py_raise TypeError
  end.

(** Modelled from the spec: [as_column] (absent from the sources) on a
    sequence of Python integers: a new integer column holding them. *)
Definition as_column (values : list Z) : Py Column :=
  Column_from_unique_ptr (mk_column_view INT64 (Some <$> values)).

(** What a caller may pass where the bindings take an [object]. *)
Inductive host_object :=
  | a_column (c : Column)
  | a_scalar (s : scalar)
  | a_value (v : element).

(** Modelled from the spec: [Scalar(obj, dtype)] on an arbitrary object
    (class [Scalar] is absent from the sources): a scalar holds a single
    value (§3), so only a Python value (an integer or [None]) can be
    turned into one. *)
Definition Scalar_of (obj : host_object) (dt : option dtype) : Py scalar :=
  match obj with
  | a_value v => Scalar v dt
  | _ => py_raise TypeError
  end.

(** The source of a scatter: a table, or a sequence of Python values. *)
Inductive scatter_source :=
  | from_table (t : Table)
  | from_values (values : list element).

Inductive map_object :=
  | map_column (c : Column)
  | map_values (values : list Z).

(** Running a list of computations in order ([for ... in ...]). *)
Fixpoint for_each {A B} (f : A → Py B) (l : list A) : Py (list B) :=
  match l with
  | [] => mret []
  | a :: l => b ← f a; bs ← for_each f l; mret (b :: bs)
  end.

(* ===================================================================== *)
(** * [copying.pyx] *)
(* ===================================================================== *)

Definition copy_column (input_column : Column) : Py Column :=
  input_column_view ← Column_view input_column;
  Column_from_unique_ptr (cpp_copying.column_of_view input_column_view).

Definition _copy_range_in_place (input_column target_column : Column)
    (input_begin input_end target_begin : Z) : Py unit :=
  input_begin ← lift (to_size_type input_begin);
  input_end ← lift (to_size_type input_end);
  target_begin ← lift (to_size_type target_begin);
  input_column_view ← Column_view input_column;
  cpp_copying.copy_range_in_place
    input_column_view target_column input_begin input_end target_begin.

Definition _copy_range (input_column target_column : Column)
    (input_begin input_end target_begin : Z) : Py Column :=
  input_begin ← lift (to_size_type input_begin);
  input_end ← lift (to_size_type input_end);
  target_begin ← lift (to_size_type target_begin);
  input_column_view ← Column_view input_column;
  target_column_view ← Column_view target_column;
  c_result ← lift (cpp_copying.copy_range
                     input_column_view target_column_view
                     input_begin input_end target_begin);
  Column_from_unique_ptr c_result.

(** [abs(target_end - target_begin) <= 1] on [size_type] operands. *)
Definition span_at_most_one (target_begin target_end : Z) : bool :=
  Z.abs (wrap_size_type (target_end - target_begin)) <=? 1.

(** [if bound < 0: bound = bound + target_column.size], the sum being
    stored back into the [size_type] variable. *)
Definition normalize_bound (bound : Z) (target_column : Column) : Py Z :=
  if bound <? 0 then
    size ← Column_size target_column;
    lift (to_size_type (bound + size))
  else mret bound.

Definition copy_range (input_column target_column : Column)
    (input_begin input_end target_begin target_end : Z) (inplace : bool)
    : Py pyobject :=
  input_begin ← lift (to_size_type input_begin);
  input_end ← lift (to_size_type input_end);
  target_begin ← lift (to_size_type target_begin);
  target_end ← lift (to_size_type target_end);
  if span_at_most_one target_begin target_end then
    mret (PyColumn target_column)
  else
    target_begin ← normalize_bound target_begin target_column;
    target_end ← normalize_bound target_end target_column;
    if target_begin >? target_end then
      mret (PyColumn target_column)
    else if inplace then
      _copy_range_in_place input_column target_column
                           input_begin input_end target_begin;;
      mret PyNone
    else
      c ← _copy_range input_column target_column
                      input_begin input_end target_begin;
      mret (PyColumn c).

Definition gather (source_table : Table) (gather_map : Column) : Py Table :=
  map_dtype ← Column_dtype gather_map;
  if negb (is_integer_dtype map_dtype) then py_raise AssertionError
  else
    source_table_view ← Table_view source_table;
    gather_map_view ← Column_view gather_map;
    c_result ← lift (cpp_copying.gather source_table_view gather_map_view);
    Table_from_unique_ptr c_result
      (_column_names source_table) (_index_names source_table).

(** [gather] with the mode of the interpreter explicit: the [assert] of
    the first line is a statement that runs only where assertions are
    enabled; where they are disabled (optimised mode) the body starts at
    the views.  [gather] above is the function with assertions
    enabled. *)
Definition gather_under (assertions : bool) (source_table : Table)
    (gather_map : Column) : Py Table :=
  map_dtype ← Column_dtype gather_map;
  if assertions && negb (is_integer_dtype map_dtype)
  then py_raise AssertionError
  else
    source_table_view ← Table_view source_table;
    gather_map_view ← Column_view gather_map;
    c_result ← lift (cpp_copying.gather source_table_view gather_map_view);
    Table_from_unique_ptr c_result
      (_column_names source_table) (_index_names source_table).

(** [out_table._index = target_table._index.copy(deep=False)]: the copy
    is shallow, the index keeps the same columns. *)
Definition with_index_of (target_table out_table : Table) : Table :=
  mk_Table (_index target_table) (_column_names out_table) (_columns out_table).

Definition _scatter_table (source_table : Table) (scatter_map : Column)
    (target_table : Table) (bounds_check : bool) : Py Table :=
  source_table_view ← Table_data_view source_table;
  scatter_map_view ← Column_view scatter_map;
  target_table_view ← Table_data_view target_table;
  c_result ← lift (cpp_copying.scatter source_table_view scatter_map_view
                                       target_table_view bounds_check);
  out_table ← Table_from_unique_ptr c_result (_column_names target_table) None;
  mret (with_index_of target_table out_table).

Definition _scatter_scalar (scalars : list element) (scatter_map : Column)
    (target_table : Table) (bounds_check : bool) : Py Table :=
  source_scalars ← for_each
    (λ '(val, col), dt ← Column_dtype col; Scalar val (Some dt))
    (zip scalars (_columns target_table));
  scatter_map_view ← Column_view scatter_map;
  target_table_view ← Table_data_view target_table;
  c_result ← lift (cpp_copying.scatter_scalars source_scalars scatter_map_view
                                               target_table_view bounds_check);
  out_table ← Table_from_unique_ptr c_result (_column_names target_table) None;
  mret (with_index_of target_table out_table).

Definition scatter (input : scatter_source) (scatter_map : map_object)
    (target : Table) (bounds_check : bool) : Py Table :=
  scatter_map ← match scatter_map with
                | map_column c => mret c
                | map_values values => as_column values
                end;
  match input with
  | from_table input => _scatter_table input scatter_map target bounds_check
  | from_values input => _scatter_scalar input scatter_map target bounds_check
  end.

Definition _copy_if_else_column_column (lhs rhs boolean_mask : Column) : Py Column :=
  lhs_view ← Column_view lhs;
  rhs_view ← Column_view rhs;
  boolean_mask_view ← Column_view boolean_mask;
  c_result ← lift (cpp_copying.copy_if_else
                     (cpp_copying.of_column lhs_view)
                     (cpp_copying.of_column rhs_view) boolean_mask_view);
  Column_from_unique_ptr c_result.

Definition _copy_if_else_scalar_column (lhs : scalar) (rhs boolean_mask : Column)
    : Py Column :=
  rhs_view ← Column_view rhs;
  boolean_mask_view ← Column_view boolean_mask;
  c_result ← lift (cpp_copying.copy_if_else
                     (cpp_copying.of_scalar lhs)
                     (cpp_copying.of_column rhs_view) boolean_mask_view);
  Column_from_unique_ptr c_result.

Definition _copy_if_else_column_scalar (lhs : Column) (rhs : scalar)
    (boolean_mask : Column) : Py Column :=
  lhs_view ← Column_view lhs;
  boolean_mask_view ← Column_view boolean_mask;
  c_result ← lift (cpp_copying.copy_if_else
                     (cpp_copying.of_column lhs_view)
                     (cpp_copying.of_scalar rhs) boolean_mask_view);
  Column_from_unique_ptr c_result.

Definition _copy_if_else_scalar_scalar (lhs rhs : scalar) (boolean_mask : Column)
    : Py Column :=
  boolean_mask_view ← Column_view boolean_mask;
  c_result ← lift (cpp_copying.copy_if_else
                     (cpp_copying.of_scalar lhs)
                     (cpp_copying.of_scalar rhs) boolean_mask_view);
  Column_from_unique_ptr c_result.

(** [lhs is None and rhs is None]. *)
Definition is_None (obj : host_object) : bool :=
  match obj with a_value None => true | _ => false end.

Definition copy_if_else (lhs rhs : host_object) (boolean_mask : Column)
    : Py pyobject :=
  match lhs with
  | a_column lhs =>
      match rhs with
      | a_column rhs =>
          c ← _copy_if_else_column_column lhs rhs boolean_mask;
          mret (PyColumn c)
      | _ =>
          dt ← Column_dtype lhs;
          rhs ← Scalar_of rhs (Some dt);
          c ← _copy_if_else_column_scalar lhs rhs boolean_mask;
          mret (PyColumn c)
      end
  | _ =>
      match rhs with
      | a_column rhs =>
          dt ← Column_dtype rhs;
          lhs ← Scalar_of lhs (Some dt);
          c ← _copy_if_else_scalar_column lhs rhs boolean_mask;
          mret (PyColumn c)
      | _ =>
          if is_None lhs && is_None rhs then mret PyNone
          else
            lhs ← Scalar_of lhs None;
            rhs ← Scalar_of rhs None;
            c ← _copy_if_else_scalar_scalar lhs rhs boolean_mask;
            mret (PyColumn c)
      end
  end.

Definition _boolean_mask_scatter_table (input_table target_table : Table)
    (boolean_mask : Column) : Py Table :=
  input_table_view ← Table_view input_table;
  target_table_view ← Table_view target_table;
  boolean_mask_view ← Column_view boolean_mask;
  c_result ← lift (cpp_copying.boolean_mask_scatter
                     input_table_view target_table_view boolean_mask_view);
  index_names ← _index_column_names target_table;
  Table_from_unique_ptr c_result (_column_names target_table) (Some index_names).

Definition _boolean_mask_scatter_scalar (input_scalars : list scalar)
    (target_table : Table) (boolean_mask : Column) : Py Table :=
  target_table_view ← Table_view target_table;
  boolean_mask_view ← Column_view boolean_mask;
  c_result ← lift (cpp_copying.boolean_mask_scatter_scalars
                     input_scalars target_table_view boolean_mask_view);
  index_names ← _index_column_names target_table;
  Table_from_unique_ptr c_result (_column_names target_table) (Some index_names).

(** Neither branch has a [return]: the table built by the helper is
    dropped and the call evaluates to [None]. *)
Definition boolean_mask_scatter (input : scatter_source) (target_table : Table)
    (boolean_mask : Column) : Py pyobject :=
  match input with
  | from_table input =>
      _boolean_mask_scatter_table input target_table boolean_mask;;
      mret PyNone
  | from_values input =>
      scalar_list ← for_each (λ i, Scalar i None) input;
      _boolean_mask_scatter_scalar scalar_list target_table boolean_mask;;
      mret PyNone
  end.

(** [int offset] and [int32_t c_offset]: a 32-bit C integer. *)
Definition shift (input : Column) (offset : Z) (fill_value : host_object)
    : Py Column :=
  offset ← lift (to_size_type offset);
  fill ← match fill_value with
         | a_scalar s => mret s
         | _ => dt ← Column_dtype input; Scalar_of fill_value (Some dt)
         end;
  c_input ← Column_view input;
  c_output ← lift (cpp_copying.shift c_input offset fill);
  Column_from_unique_ptr c_output.

(* ===================================================================== *)
(** * [copying.pyx]: views, partitions and empty copies *)
(* ===================================================================== *)

(** Conversion of a Python integer to a C [int] variable ([cdef int
    index], [cdef int split]): 32 bits, as [size_type]. *)
Definition to_int (z : Z) : outcome Z := to_size_type z.

(** [for index in indices: c_indices.push_back(index)]. *)
Definition push_back_all (indices : list Z) : Py (list Z) :=
  for_each (λ index, lift (to_int index)) indices.

Section views_and_partitions.
(** The kernels behind these bindings, and the class methods that wrap a
    view of existing storage, are absent from the sources: they are
    parameters here. *)
Variable cpp_slice_column : column_view → list Z → outcome (list column_view).
Variable cpp_slice_table : table_view → list Z → outcome (list table_view).
Variable cpp_split_column : column_view → list Z → outcome (list column_view).
Variable cpp_split_table : table_view → list Z → outcome (list table_view).
Variable cpp_scatter_to_tables :
  table_view → column_view → outcome (list table_view).
Variable cpp_empty_like_column : column_view → outcome column_view.
Variable cpp_empty_like_table : table_view → outcome table_view.
Variable cpp_allocate_like : column_view → option Z → outcome column_view.
Variable Column_from_column_view : column_view → Column → Py Column.
Variable Table_from_table_view :
  table_view → Table → list string → list string → Py Table.

Definition scatter_to_tables (source_table : Table) (partition_map : Column)
    : Py (list Table) :=
  source_table_view ← Table_view source_table;
  partition_map_view ← Column_view partition_map;
  c_result ← lift (cpp_scatter_to_tables source_table_view partition_map_view);
  for_each
    (λ c_result_i,
       index_names ← _index_column_names source_table;
       Table_from_unique_ptr c_result_i (_column_names source_table)
                             (Some index_names))
    c_result.


(** [size] is [None] or a Python integer stored into [size_type c_size];
    the mask policy is [RETAIN] in both calls. *)
Definition column_allocate_like (input_column : Column) (size : option Z)
    : Py Column :=
  input_column_view ← Column_view input_column;
  match size with
  | None =>
      c_result ← lift (cpp_allocate_like input_column_view None);
      Column_from_unique_ptr c_result
  | Some size =>
      c_size ← lift (to_size_type size);
      c_result ← lift (cpp_allocate_like input_column_view (Some c_size));
      Column_from_unique_ptr c_result
  end.

Definition table_empty_like (input_table : Table) : Py Table :=
  input_table_view ← Table_view input_table;
  c_result ← lift (cpp_empty_like_table input_table_view);
  index_names ← _index_column_names input_table;
  Table_from_unique_ptr c_result (_column_names input_table) (Some index_names).

Definition column_slice (input_column : Column) (indices : list Z)
    : Py (list Column) :=
  input_column_view ← Column_view input_column;
  c_indices ← push_back_all indices;
  c_result ← lift (cpp_slice_column input_column_view c_indices);
  for_each (λ c_result_i, Column_from_column_view c_result_i input_column)
           c_result.

Definition table_slice (input_table : Table) (indices : list Z)
    : Py (list Table) :=
  input_table_view ← Table_view input_table;
  c_indices ← push_back_all indices;
  c_result ← lift (cpp_slice_table input_table_view c_indices);
  for_each
    (λ c_result_i,
       index_names ← _index_column_names input_table;
       Table_from_table_view c_result_i input_table
                             (_column_names input_table) index_names)
    c_result.

Definition column_split (input_column : Column) (splits : list Z)
    : Py (list Column) :=
  input_column_view ← Column_view input_column;
  c_splits ← push_back_all splits;
  c_result ← lift (cpp_split_column input_column_view c_splits);
  for_each (λ c_result_i, Column_from_column_view c_result_i input_column)
           c_result.

Definition table_split (input_table : Table) (splits : list Z)
    : Py (list Table) :=
  input_table_view ← Table_view input_table;
  c_splits ← push_back_all splits;
  c_result ← lift (cpp_split_table input_table_view c_splits);
  for_each
    (λ c_result_i,
       index_names ← _index_column_names input_table;
       Table_from_table_view c_result_i input_table
                             (_column_names input_table) index_names)
    c_result.
End views_and_partitions.

(* ===================================================================== *)
(** * Vocabulary of the properties *)
(* ===================================================================== *)

(** A bound of the destination span after normalization: a negative
    bound has the size of the target added. *)
Definition normalized_bound (bound size : Z) : Z :=
  if bound <? 0 then bound + size else bound.

(** The object is one of the store. *)
Definition allocated (st : store) (c : Column) : Prop := (c < length st)%nat.

(** What the objects of a table hold: the view with the index columns,
    and the data columns alone. *)
Definition read_columns (st : store) (columns : list Column) : table_view :=
  (λ c : Column, st !!! c) <$> columns.

Definition read_table (st : store) (t : Table) : table_view :=
  read_columns st (index_columns t ++ _columns t).

Definition read_data (st : store) (t : Table) : table_view :=
  read_columns st (_columns t).

(** A table has one name per column, in the index and in the data. *)
Definition Table_wf (t : Table) : Prop :=
  length (_column_names t) = length (_columns t)
  ∧ match _index t with
    | None => True
    | Some ix => length (ix_column_names ix) = length (ix_columns ix)
    end.

(** A fill value of [shift]: a Python value, or a [Scalar] of the type
    of the input column. *)
Definition fill_for (st : store) (input : Column) (fill_value : host_object)
    : Prop :=
  match fill_value with
  | a_value _ => True
  | a_scalar s => s_type s = cv_type (st !!! input)
  | a_column _ => False
  end.

(** The entries of a scatter map handed to [scatter]. *)
Definition map_indices (st : store) (m : map_object) : list Z :=
  match m with
  | map_column c => default 0 <$> cv_data (st !!! c)
  | map_values values => values
  end.

(** The table that [Table.from_unique_ptr] makes in store [st] from a
    result with the names of [t]: its columns are the next objects. *)
Definition next_table (st : store) (t : Table) : Table :=
  mk_Table
    ((λ ix, mk_Index (ix_column_names ix)
                     (seq (length st) (length (ix_column_names ix))))
       <$> _index t)
    (_column_names t)
    (seq (length st + length (default [] (_index_names t)))
         (length (_column_names t))).

(** A column of the result against the column of the target, for the
    wrapped indices [idx] of the map: same type, same row count, and the
    rows that no index addresses hold what they held. *)
Definition column_frame (idx : list Z) (target out : column_view) : Prop :=
  cv_type out = cv_type target
  ∧ length (cv_data out) = length (cv_data target)
  ∧ ∀ i : nat, Z.of_nat i ∉ idx → cv_data out !! i = cv_data target !! i.

(** The scatter map holds the indices [entries]: an integer column with
    an index in every row, or the sequence itself. *)
Definition map_holds (st : store) (m : map_object) (entries : list Z) : Prop :=
  match m with
  | map_column c =>
      is_integer_dtype (cv_type (st !!! c)) = true
      ∧ cv_data (st !!! c) = Some <$> entries
  | map_values values => values = entries
  end.

(** The source of a scatter fits the target: a table of existing columns
    sharing their row count, with the column count and types of the
    target and one row per map entry; or at least one value per target
    column. *)
Definition source_fits (st : store) (input : scatter_source) (target : Table)
    (entries : list Z) : Prop :=
  match input with
  | from_table s =>
      Forall (allocated st) (_columns s)
      ∧ same_row_count (read_data st s) = true
      ∧ length (_columns s) = length (_columns target)
      ∧ cv_type <$> read_data st s = cv_type <$> read_data st target
      ∧ Z.of_nat (length entries) = num_rows (read_data st s)
  | from_values values => (length (_columns target) ≤ length values)%nat
  end.

(** A computation keeps a relation between the store it starts from and
    the store it ends in, whatever its outcome. *)
Definition keeps {A} (R : relation (list column_view)) (m : Py A) : Prop :=
  ∀ st, R st (m st).1.

(** Nothing is made and only the object [target] may hold something
    else. *)
Definition only_writes (target : Column) : relation (list column_view) :=
  λ st st', length st' = length st ∧ ∀ c, c ≠ target → st' !!! c = st !!! c.

(** ** An example runtime *)

(** The state of the example runtime is the fault pending on the
    stream; synchronizing reports and clears it. *)
Definition example_error_name (error : cudaError_t) : string :=
  if error =? 2 then "cudaErrorMemoryAllocation"
  else if error =? 700 then "cudaErrorIllegalAddress"
  else "cudaErrorUnknown".

Definition example_error_string (error : cudaError_t) : string :=
  if error =? 2 then "out of memory"
  else if error =? 700 then "an illegal memory access was encountered"
  else "unknown error".

Definition example_synchronize (stream : nat) (pending : cudaError_t)
    : cudaError_t * cudaError_t :=
  (cudaSuccess, pending).

Definition example_last_error (pending : cudaError_t)
    : cudaError_t * cudaError_t :=
  (cudaSuccess, pending).

(** ** Example objects *)

Definition int32_column (values : list Z) : column_view :=
  mk_column_view INT32 (Some <$> values).

(** Object 0 is the target [1, 2, 3, 4, 5], object 1 the source [9, 8]. *)
Definition range_store : store :=
  [int32_column [1; 2; 3; 4; 5]; int32_column [9; 8]].

(** The scenario of scatter: in [range_store] the source [9, 8] (object
    1) is scattered at [0, -1] into the target [1, 2, 3, 4, 5] (object
    0). *)
Definition scatter_source_table : Table := mk_Table None ["a"%string] [1%nat].
Definition scatter_target_table : Table := mk_Table None ["a"%string] [0%nat].







(** The scenario of gather: object 0 is the column [10, null, 30, 40],
    object 1 the gather map [3, 1, 0]. *)
Definition gather_store : store :=
  [mk_column_view INT32 [Some 10; None; Some 30; Some 40];
   int32_column [3; 1; 0]].

Definition gather_source : Table := mk_Table None ["a"%string] [0%nat].

(** The scenario of the boolean-mask scatter: the target rows
    [p, q, r, s] are 11..14 under the index 0..3 (objects 1 and 0), the
    input rows [A, B] are 101 and 102 under the index 0, 2 (objects 3
    and 2), the mask [T, F, T, F] is object 4. *)
Definition mask_store : store :=
  [int32_column [0; 1; 2; 3]; int32_column [11; 12; 13; 14];
   int32_column [0; 2]; int32_column [101; 102];
   mk_column_view BOOL8 [Some 1; Some 0; Some 1; Some 0]].

Definition mask_target : Table :=
  mk_Table (Some (mk_Index ["index"%string] [0%nat])) ["a"%string] [1%nat].

Definition mask_input : Table :=
  mk_Table (Some (mk_Index ["index"%string] [2%nat])) ["a"%string] [3%nat].

(* ===================================================================== *)
(** * Running the monad *)
(* ===================================================================== *)

Lemma run_bind {A B} (m : Py A) (f : A → Py B) st :
  (m ≫= f) st =
  match m st with
  | (st', Ok a) => f a st'
  | (st', Raise e) => (st', Raise e)
  | (st', Undefined) => (st', Undefined)
  end.
Proof. reflexivity. Qed.

Lemma run_bind_Ok {A B} (m : Py A) (f : A → Py B) st st' a :
  m st = (st', Ok a) → (m ≫= f) st = f a st'.
Proof. intros H. rewrite run_bind, H. reflexivity. Qed.

Lemma run_ret {A} (a : A) st : (mret a : Py A) st = (st, Ok a).
Proof. reflexivity. Qed.

Lemma run_lift {A} (o : outcome A) st : lift o st = (st, o).
Proof. reflexivity. Qed.

Lemma run_Column_view c st : Column_view c st = (st, Ok (st !!! c)).
Proof. reflexivity. Qed.

Lemma run_Column_size c st : Column_size c st = (st, Ok (cv_size (st !!! c))).
Proof. reflexivity. Qed.

Lemma run_Column_dtype c st : Column_dtype c st = (st, Ok (cv_type (st !!! c))).
Proof. reflexivity. Qed.

Lemma expects_true reason : cpp_copying.expects true reason = Ok tt.
Proof. reflexivity. Qed.

(** ** [size_type] *)

Lemma in_size_type_spec z :
  in_size_type z = true ↔ size_type_min <= z <= size_type_max.
Proof. unfold in_size_type. rewrite andb_true_iff, !Z.leb_le. tauto. Qed.

Lemma to_size_type_Ok z : in_size_type z = true → to_size_type z = Ok z.
Proof. intros H. unfold to_size_type. rewrite H. reflexivity. Qed.

Lemma wrap_size_type_small d :
  size_type_min <= d <= size_type_max → wrap_size_type d = d.
Proof.
  unfold size_type_min, size_type_max, wrap_size_type. intros H.
  rewrite Z.mod_small; lia.
Qed.

Lemma span_at_most_one_representable target_begin target_end :
  Z.abs (target_end - target_begin) <= size_type_max →
  span_at_most_one target_begin target_end
  = (Z.abs (target_end - target_begin) <=? 1).
Proof.
  intros H. unfold span_at_most_one. rewrite wrap_size_type_small; [done|].
  unfold size_type_min, size_type_max in *. lia.
Qed.

Lemma span_at_most_one_small target_begin target_end :
  Z.abs (target_end - target_begin) <= 1 →
  span_at_most_one target_begin target_end = true.
Proof.
  intros H. rewrite span_at_most_one_representable.
  - apply Z.leb_le. exact H.
  - unfold size_type_max. lia.
Qed.

Lemma span_longer_than_one target_begin target_end :
  span_at_most_one target_begin target_end = false →
  1 < Z.abs (target_end - target_begin).
Proof.
  intros H. destruct (Z_lt_le_dec 1 (Z.abs (target_end - target_begin))) as [|Hle];
    [done|].
  rewrite span_at_most_one_small in H by exact Hle. discriminate.
Qed.

Lemma normalized_bound_in_size_type bound size :
  in_size_type bound = true → 0 <= size <= size_type_max →
  in_size_type (normalized_bound bound size) = true.
Proof.
  rewrite !in_size_type_spec. unfold normalized_bound, size_type_min, size_type_max.
  intros Hb Hs. destruct (Z.ltb_spec bound 0); lia.
Qed.

Lemma run_normalize_bound bound c st :
  in_size_type bound = true → cv_size (st !!! c) <= size_type_max →
  normalize_bound bound c st
  = (st, Ok (normalized_bound bound (cv_size (st !!! c)))).
Proof.
  intros Hb Hs. unfold normalize_bound, normalized_bound.
  destruct (Z.ltb_spec bound 0) as [Hneg|Hpos]; [|reflexivity].
  rewrite (run_bind_Ok _ _ _ _ _ (run_Column_size c st)), run_lift.
  rewrite to_size_type_Ok; [reflexivity|].
  apply in_size_type_spec. apply in_size_type_spec in Hb.
  unfold cv_size, size_type_min, size_type_max in *. lia.
Qed.

(** ** [copy_range] step by step *)

Lemma copy_range_unfold input_column target_column
    input_begin input_end target_begin target_end inplace st :
  in_size_type input_begin = true → in_size_type input_end = true →
  in_size_type target_begin = true → in_size_type target_end = true →
  cv_size (st !!! target_column) <= size_type_max →
  copy_range input_column target_column input_begin input_end
             target_begin target_end inplace st
  = if span_at_most_one target_begin target_end then (st, Ok (PyColumn target_column))
    else
      let size := cv_size (st !!! target_column) in
      if normalized_bound target_begin size >? normalized_bound target_end size
      then (st, Ok (PyColumn target_column))
      else if inplace then
        (_copy_range_in_place input_column target_column input_begin input_end
           (normalized_bound target_begin size);; mret PyNone) st
      else
        (c ← _copy_range input_column target_column input_begin input_end
               (normalized_bound target_begin size);
         mret (PyColumn c)) st.
Proof.
  intros Hib Hie Htb Hte Hsize. unfold copy_range.
  rewrite (run_bind_Ok _ _ st st input_begin)
    by (rewrite run_lift, to_size_type_Ok; done).
  rewrite (run_bind_Ok _ _ st st input_end)
    by (rewrite run_lift, to_size_type_Ok; done).
  rewrite (run_bind_Ok _ _ st st target_begin)
    by (rewrite run_lift, to_size_type_Ok; done).
  rewrite (run_bind_Ok _ _ st st target_end)
    by (rewrite run_lift, to_size_type_Ok; done).
  destruct (span_at_most_one target_begin target_end); [reflexivity|].
  rewrite (run_bind_Ok _ _ _ _ _ (run_normalize_bound _ _ _ Htb Hsize)).
  rewrite (run_bind_Ok _ _ _ _ _ (run_normalize_bound _ _ _ Hte Hsize)).
  cbv zeta.
  destruct (_ >? _); [reflexivity|].
  destruct inplace; reflexivity.
Qed.

Lemma run__copy_range_in_place input_column target_column
    input_begin input_end target_begin st :
  in_size_type input_begin = true → in_size_type input_end = true →
  in_size_type target_begin = true →
  _copy_range_in_place input_column target_column
                       input_begin input_end target_begin st
  = match cpp_copying.copy_range (st !!! input_column) (st !!! target_column)
                                 input_begin input_end target_begin with
    | Ok result => (<[target_column := result]> st, Ok tt)
    | Raise e => (st, Raise e)
    | Undefined => (st, Undefined)
    end.
Proof.
  intros Hib Hie Htb. unfold _copy_range_in_place.
  rewrite (run_bind_Ok _ _ st st input_begin)
    by (rewrite run_lift, to_size_type_Ok; done).
  rewrite (run_bind_Ok _ _ st st input_end)
    by (rewrite run_lift, to_size_type_Ok; done).
  rewrite (run_bind_Ok _ _ st st target_begin)
    by (rewrite run_lift, to_size_type_Ok; done).
  rewrite (run_bind_Ok _ _ _ _ _ (run_Column_view input_column st)).
  unfold cpp_copying.copy_range_in_place.
  rewrite (run_bind_Ok _ _ _ _ _ (run_Column_view target_column st)).
  rewrite run_bind, run_lift.
  destruct (cpp_copying.copy_range _ _ _ _ _); reflexivity.
Qed.

Lemma run__copy_range input_column target_column
    input_begin input_end target_begin st :
  in_size_type input_begin = true → in_size_type input_end = true →
  in_size_type target_begin = true →
  _copy_range input_column target_column input_begin input_end target_begin st
  = match cpp_copying.copy_range (st !!! input_column) (st !!! target_column)
                                 input_begin input_end target_begin with
    | Ok result => (st ++ [result], Ok (length st))
    | Raise e => (st, Raise e)
    | Undefined => (st, Undefined)
    end.
Proof.
  intros Hib Hie Htb. unfold _copy_range.
  rewrite (run_bind_Ok _ _ st st input_begin)
    by (rewrite run_lift, to_size_type_Ok; done).
  rewrite (run_bind_Ok _ _ st st input_end)
    by (rewrite run_lift, to_size_type_Ok; done).
  rewrite (run_bind_Ok _ _ st st target_begin)
    by (rewrite run_lift, to_size_type_Ok; done).
  rewrite (run_bind_Ok _ _ _ _ _ (run_Column_view input_column st)).
  rewrite (run_bind_Ok _ _ _ _ _ (run_Column_view target_column st)).
  rewrite run_bind, run_lift.
  destruct (cpp_copying.copy_range _ _ _ _ _); reflexivity.
Qed.

(** The kernel's range copy succeeds when its contract holds. *)
Lemma cpp_copy_range_Ok input target input_begin input_end target_begin :
  cv_type input = cv_type target →
  0 <= input_begin <= input_end → input_end <= cv_size input →
  0 <= target_begin → target_begin + (input_end - input_begin) <= cv_size target →
  cpp_copying.copy_range input target input_begin input_end target_begin
  = Ok (mk_column_view (cv_type target)
          (take (Z.to_nat target_begin) (cv_data target)
           ++ take (Z.to_nat (input_end - input_begin))
                   (drop (Z.to_nat input_begin) (cv_data input))
           ++ drop (Z.to_nat (target_begin + (input_end - input_begin)))
                   (cv_data target))).
Proof.
  intros Hty [Hb0 Hbe] Hes Ht0 Htfit. unfold cpp_copying.copy_range.
  rewrite bool_decide_eq_true_2 by exact Hty.
  rewrite (proj2 (Z.leb_le 0 input_begin)) by exact Hb0.
  rewrite (proj2 (Z.leb_le input_begin input_end)) by exact Hbe.
  rewrite (proj2 (Z.leb_le input_end (cv_size input))) by exact Hes.
  rewrite (proj2 (Z.leb_le 0 target_begin)) by exact Ht0.
  rewrite (proj2 (Z.leb_le _ (cv_size target))) by exact Htfit.
  reflexivity.
Qed.

(* ===================================================================== *)
(** * [copy_range]: the no-op policy and the in-place variant *)
(* ===================================================================== *)

Section copy_range_properties.
Variables (st : list column_view) (input_column target_column : nat).
Variables (input_begin input_end target_begin target_end : Z).
Hypothesis input_begin_fits : in_size_type input_begin = true.
Hypothesis input_end_fits : in_size_type input_end = true.
Hypothesis target_begin_fits : in_size_type target_begin = true.
Hypothesis target_end_fits : in_size_type target_end = true.

Let size := cv_size (st !!! target_column).
Let begin' := normalized_bound target_begin size.
Let end' := normalized_bound target_end size.

Lemma copy_range_span_at_most_one inplace :
  Z.abs (target_end - target_begin) <= 1 →
  copy_range input_column target_column input_begin input_end
             target_begin target_end inplace st
  = (st, Ok (PyColumn target_column)).
Proof.
  intros Hspan. unfold copy_range.
  rewrite (run_bind_Ok _ _ st st input_begin)
    by (rewrite run_lift, to_size_type_Ok; done).
  rewrite (run_bind_Ok _ _ st st input_end)
    by (rewrite run_lift, to_size_type_Ok; done).
  rewrite (run_bind_Ok _ _ st st target_begin)
    by (rewrite run_lift, to_size_type_Ok; done).
  rewrite (run_bind_Ok _ _ st st target_end)
    by (rewrite run_lift, to_size_type_Ok; done).
  rewrite span_at_most_one_small by exact Hspan. reflexivity.
Qed.

Hypothesis size_fits : size <= size_type_max.

Lemma copy_range_reversed inplace :
  begin' > end' →
  copy_range input_column target_column input_begin input_end
             target_begin target_end inplace st
  = (st, Ok (PyColumn target_column)).
Proof.
  intros Hrev. rewrite copy_range_unfold by done.
  destruct (span_at_most_one _ _); [reflexivity|]. cbv zeta.
  fold size. fold begin'. fold end'.
  rewrite (proj2 (Z.gtb_gt begin' end')) by exact Hrev. reflexivity.
Qed.

Lemma copy_range_proceeds inplace :
  span_at_most_one target_begin target_end = false →
  begin' <= end' →
  copy_range input_column target_column input_begin input_end
             target_begin target_end inplace st
  = if inplace then
      (_copy_range_in_place input_column target_column
                            input_begin input_end begin';;
       mret PyNone) st
    else
      (c ← _copy_range input_column target_column
                       input_begin input_end begin';
       mret (PyColumn c)) st.
Proof.
  intros Hlong Hord. rewrite copy_range_unfold by done.
  rewrite Hlong. cbv zeta. fold size. fold begin'. fold end'.
  destruct (Z.gtb_spec begin' end'); [lia|reflexivity].
Qed.

Lemma span_test_fails :
  1 < Z.abs (target_end - target_begin) <= size_type_max →
  span_at_most_one target_begin target_end = false.
Proof.
  intros [Hlong Hrep]. rewrite span_at_most_one_representable by exact Hrep.
  by apply Z.leb_gt.
Qed.

(** C2. For a call [copy_range(src, dst, src_begin, src_end,
    target_begin, target_end, inplace)] on [size_type] arguments: if
    [abs(target_end - target_begin) <= 1] the call returns [dst] itself
    and leaves the store as it was; otherwise a negative [target_begin]
    or [target_end] has [dst.size] added, and if then
    [target_begin > target_end] the call again returns [dst] with the
    store untouched, raising nothing; when the test on the span fails
    (as it does for a span longer than one whose length is a
    [size_type]) and the normalized bounds are in order, the range copy
    is made with the normalized [target_begin]. *)
Theorem copy_range_noop_policy inplace :
  let call := copy_range input_column target_column input_begin input_end
                         target_begin target_end inplace st in
  (Z.abs (target_end - target_begin) <= 1 →
     call = (st, Ok (PyColumn target_column)))
  ∧ (1 < Z.abs (target_end - target_begin) → begin' > end' →
     call = (st, Ok (PyColumn target_column)))
  ∧ (1 < Z.abs (target_end - target_begin) <= size_type_max →
     span_at_most_one target_begin target_end = false)
  ∧ (span_at_most_one target_begin target_end = false → begin' <= end' →
     call = if inplace then
              (_copy_range_in_place input_column target_column
                                    input_begin input_end begin';;
               mret PyNone) st
            else
              (c ← _copy_range input_column target_column
                               input_begin input_end begin';
               mret (PyColumn c)) st).
Proof.
  cbv zeta. split; [|split; [|split]].
  - apply copy_range_span_at_most_one.
  - intros _. apply copy_range_reversed.
  - apply span_test_fails.
  - apply copy_range_proceeds.
Qed.

(** C10. A call of [copy_range] on [size_type] arguments passes the
    no-op guards when the test [abs(target_end - target_begin) <= 1]
    fails and the normalized begin is not above the normalized end; the
    span is then longer than one, and every span longer than one whose
    length is a [size_type] fails the test.  With [inplace = True] such
    a call writes the range copy into the storage of the target column
    and returns [None] (where the range copy raises, the call raises and
    the storage is as before).  And whenever a call returns, it returns
    [None] exactly on that path, and a column on the out-of-place path
    and on the guard paths. *)
Theorem copy_range_inplace_returns_None :
  let passes_guards :=
    span_at_most_one target_begin target_end = false ∧ begin' <= end' in
  (passes_guards → 1 < Z.abs (target_end - target_begin))
  ∧ (1 < Z.abs (target_end - target_begin) <= size_type_max →
     begin' <= end' → passes_guards)
  ∧ (passes_guards →
     copy_range input_column target_column input_begin input_end
                target_begin target_end true st
     = match cpp_copying.copy_range (st !!! input_column) (st !!! target_column)
                                    input_begin input_end begin' with
       | Ok result => (<[target_column := result]> st, Ok PyNone)
       | Raise e => (st, Raise e)
       | Undefined => (st, Undefined)
       end)
  ∧ (∀ inplace st' r,
       copy_range input_column target_column input_begin input_end
                  target_begin target_end inplace st = (st', Ok r) →
       (r = PyNone ∧ inplace = true ∧ passes_guards)
       ∨ (∃ c, r = PyColumn c ∧ (inplace = false ∨ ¬ passes_guards))).
Proof.
  cbv zeta.
  assert (Hbegin' : in_size_type begin' = true).
  { apply normalized_bound_in_size_type; [done|].
    split; [unfold size, cv_size; lia|done]. }
  split; [|split; [|split]].
  - intros [Hlong _]. by apply span_longer_than_one.
  - intros Hlong Hord. split; [by apply span_test_fails|done].
  - intros [Hlong Hord]. rewrite copy_range_proceeds by done.
    rewrite run_bind, run__copy_range_in_place by done.
    destruct (cpp_copying.copy_range _ _ _ _ _); reflexivity.
  - intros inplace st' r Hrun.
    destruct (span_at_most_one target_begin target_end) eqn:Hspan.
    + rewrite copy_range_unfold, Hspan in Hrun by done. simplify_eq.
      right. eexists. split; [done|]. right. by intros [? _].
    + destruct (Z_le_gt_dec begin' end') as [Hord|Hrev].
      * rewrite copy_range_proceeds in Hrun by done.
        destruct inplace; rewrite run_bind in Hrun.
        -- rewrite run__copy_range_in_place in Hrun by done.
           destruct (cpp_copying.copy_range _ _ _ _ _);
             rewrite ?run_ret in Hrun; simplify_eq.
           left. done.
        -- rewrite run__copy_range in Hrun by done.
           destruct (cpp_copying.copy_range _ _ _ _ _);
             rewrite ?run_ret in Hrun; simplify_eq.
           right. eexists. split; [done|]. by left.
      * rewrite copy_range_reversed in Hrun by done. simplify_eq.
        right. eexists. split; [done|]. right. intros [_ ?]. lia.
Qed.
End copy_range_properties.

(** C9. The length-at-most-one test of [copy_range] is made on the raw
    bounds, before any normalization: whatever the size of the target,
    raw bounds at most one apart make the call return the target with
    the store untouched; so with [target_begin = 0], [target_end = -1]
    and a target of size 5, whose normalized span [0, 4) is longer than
    one element, the call returns the target unchanged. *)
Theorem copy_range_guard_on_raw_bounds :
  (∀ st input_column target_column input_begin input_end
     target_begin target_end inplace,
     in_size_type input_begin = true → in_size_type input_end = true →
     in_size_type target_begin = true → in_size_type target_end = true →
     Z.abs (target_end - target_begin) <= 1 →
     copy_range input_column target_column input_begin input_end
                target_begin target_end inplace st
     = (st, Ok (PyColumn target_column)))
  ∧ (∀ st input_column target_column input_begin input_end inplace,
       in_size_type input_begin = true → in_size_type input_end = true →
       cv_size (st !!! target_column) = 5 →
       normalized_bound 0 (cv_size (st !!! target_column)) = 0
       ∧ normalized_bound (-1) (cv_size (st !!! target_column)) = 4
       ∧ 1 < 4 - 0
       ∧ copy_range input_column target_column input_begin input_end
                    0 (-1) inplace st
         = (st, Ok (PyColumn target_column))).
Proof.
  split.
  - intros. by apply copy_range_span_at_most_one.
  - intros st input_column target_column input_begin input_end inplace Hib Hie ->.
    repeat split; try done.
    by apply copy_range_span_at_most_one.
Qed.

Lemma copy_range_noop_policy_witness :
  copy_range 1%nat 0%nat 0 2 0 1 false range_store
    = (range_store, Ok (PyColumn 0%nat))
  ∧ copy_range 1%nat 0%nat 0 2 3 (-4) false range_store
    = (range_store, Ok (PyColumn 0%nat))
  ∧ copy_range 1%nat 0%nat 0 2 (-5) (-3) false range_store
    = (range_store ++ [int32_column [9; 8; 3; 4; 5]], Ok (PyColumn 2%nat)).
Proof.
  assert (Hsize : cv_size (range_store !!! 0%nat) <= size_type_max)
    by (vm_compute; discriminate).
  split; [|split].
  - destruct (copy_range_noop_policy range_store 1%nat 0%nat 0 2 0 1
                eq_refl eq_refl eq_refl eq_refl Hsize false) as (H & _).
    apply H. vm_compute; discriminate.
  - destruct (copy_range_noop_policy range_store 1%nat 0%nat 0 2 3 (-4)
                eq_refl eq_refl eq_refl eq_refl Hsize false) as (_ & H & _).
    apply H; reflexivity.
  - destruct (copy_range_noop_policy range_store 1%nat 0%nat 0 2 (-5) (-3)
                eq_refl eq_refl eq_refl eq_refl Hsize false)
      as (_ & _ & Hfails & H).
    rewrite H; [reflexivity | | vm_compute; discriminate].
    apply Hfails. split; [reflexivity | vm_compute; discriminate].
Defined.

Lemma copy_range_inplace_returns_None_witness :
  1 < Z.abs (-3 - -5) <= size_type_max
  ∧ normalized_bound (-5) 5 <= normalized_bound (-3) 5
  ∧ copy_range 1%nat 0%nat 0 2 (-5) (-3) true range_store
    = ([int32_column [9; 8; 3; 4; 5]; int32_column [9; 8]], Ok PyNone).
Proof.
  assert (Hlong : 1 < Z.abs (-3 - -5) <= size_type_max)
    by (split; [reflexivity | vm_compute; discriminate]).
  assert (Hord : normalized_bound (-5) 5 <= normalized_bound (-3) 5)
    by (vm_compute; discriminate).
  split; [exact Hlong|]. split; [exact Hord|].
  destruct (copy_range_inplace_returns_None range_store 1%nat 0%nat
              0 2 (-5) (-3) eq_refl eq_refl eq_refl eq_refl
              ltac:(vm_compute; discriminate))
    as (_ & Hpasses & Hrun & _).
  rewrite Hrun; [reflexivity|]. by apply Hpasses.
Defined.

Lemma copy_range_guard_on_raw_bounds_witness :
  cv_size (range_store !!! 0%nat) = 5
  ∧ normalized_bound (-1) 5 - normalized_bound 0 5 = 4
  ∧ copy_range 1%nat 0%nat 0 2 0 (-1) true range_store
    = (range_store, Ok (PyColumn 0%nat)).
Proof.
  split; [reflexivity|]. split; [reflexivity|].
  apply (proj2 copy_range_guard_on_raw_bounds range_store 1%nat 0%nat 0 2 true);
    reflexivity.
Defined.

(* ===================================================================== *)
(** * [copy_if_else] and [boolean_mask_scatter] *)
(* ===================================================================== *)

(** C6. When both operands of [copy_if_else] are null scalars ([None]),
    the call returns [None] directly: whatever the mask object is, it is
    not looked at, and the store is left as it was, no column being
    made. *)
Theorem copy_if_else_both_None st boolean_mask :
  copy_if_else (a_value None) (a_value None) boolean_mask st = (st, Ok PyNone).
Proof.
  unfold copy_if_else.
  change (is_None (a_value None) && is_None (a_value None)) with true.
  apply run_ret.
Qed.

(** Whatever its input, a call of [boolean_mask_scatter] that returns
    returns [None]. *)
Lemma boolean_mask_scatter_only_None input target_table boolean_mask st st' r :
  boolean_mask_scatter input target_table boolean_mask st = (st', Ok r) →
  r = PyNone.
Proof.
  unfold boolean_mask_scatter. destruct input as [t|values]; rewrite !run_bind.
  - destruct (_boolean_mask_scatter_table _ _ _ _) as [st1 [a|e|]];
      rewrite ?run_ret; intros; simplify_eq; done.
  - destruct (for_each _ _ _) as [st1 [l|e|]]; [|intros; simplify_eq..].
    rewrite run_bind.
    destruct (_boolean_mask_scatter_scalar _ _ _ _) as [st2 [a|e|]];
      rewrite ?run_ret; intros; simplify_eq; done.
Qed.

(** C1. On the scenario mask [T, F, T, F], input rows [A, B] (101, 102),
    target [p, q, r, s] (11..14): the helper builds the table
    [A, q, B, s] in a new column (object 6), but [boolean_mask_scatter]
    itself returns [None]. *)
Theorem boolean_mask_scatter_drops_result :
  _boolean_mask_scatter_table mask_input mask_target 4%nat mask_store
    = (mask_store ++ [int32_column [0; 1; 2; 3];
                      int32_column [101; 12; 102; 14]],
       Ok (mk_Table (Some (mk_Index ["index"%string] [5%nat]))
                    ["a"%string] [6%nat]))
  ∧ boolean_mask_scatter (from_table mask_input) mask_target 4%nat mask_store
    = (mask_store ++ [int32_column [0; 1; 2; 3];
                      int32_column [101; 12; 102; 14]],
       Ok PyNone).
Proof. split; reflexivity. Qed.

(* ===================================================================== *)
(** * [shift] *)
(* ===================================================================== *)

Lemma in_bounds_spec n k : cpp_copying.in_bounds n k = true ↔ 0 <= k < n.
Proof.
  unfold cpp_copying.in_bounds. rewrite andb_true_iff, Z.leb_le, Z.ltb_lt. tauto.
Qed.

(** Shifting by zero reads every element from its own place. *)
Lemma shift_zero_elements (data : list element) (fill : element) :
  (λ i, if cpp_copying.in_bounds (Z.of_nat (length data)) (i - 0)
        then data !!! Z.to_nat (i - 0) else fill)
    <$> seqZ 0 (Z.of_nat (length data))
  = data.
Proof.
  apply list_eq. intros i. rewrite list_lookup_fmap.
  destruct (data !! i) as [x|] eqn:Hx.
  - assert (Hi : (i < length data)%nat) by (eapply lookup_lt_Some; exact Hx).
    rewrite lookup_seqZ_lt by lia. cbn [fmap option_fmap option_map].
    replace (0 + Z.of_nat i - 0) with (Z.of_nat i) by lia.
    rewrite (proj2 (in_bounds_spec _ _)) by lia.
    rewrite Nat2Z.id. f_equal. by apply list_lookup_total_correct.
  - apply lookup_ge_None in Hx. rewrite lookup_seqZ_ge by lia. reflexivity.
Qed.

Lemma cpp_shift_zero input fill_value :
  cv_type input = s_type fill_value →
  cpp_copying.shift input 0 fill_value = Ok input.
Proof.
  intros Hty. unfold cpp_copying.shift.
  rewrite bool_decide_eq_true_2 by exact Hty. rewrite expects_true.
  change (Ok tt;; ?k) with k. unfold cv_size.
  rewrite shift_zero_elements. by destruct input.
Qed.

(** C7. For every input column [X] and every fill value (a Python value,
    or a [Scalar] of the type of [X]), [shift(X, 0, fill)] returns a new
    column whose storage is that of [X], type, values and validity, the
    objects already there being left as they were. *)
Theorem shift_zero_is_copy st input fill_value :
  fill_for st input fill_value →
  shift input 0 fill_value st = (st ++ [st !!! input], Ok (length st))
  ∧ (st ++ [st !!! input]) !!! length st = st !!! input.
Proof.
  intros Hfill. split; [|by rewrite list_lookup_total_middle].
  unfold shift.
  rewrite (run_bind_Ok _ _ st st 0) by reflexivity.
  assert (∃ fill, cv_type (st !!! input) = s_type fill
            ∧ (match fill_value with
               | a_scalar s => mret s
               | _ => dt ← Column_dtype input; Scalar_of fill_value (Some dt)
               end) st = (st, Ok fill)) as (fill & Hty & Hrun).
  { destruct fill_value as [c|s|v]; [done| |].
    - exists s. split; [by symmetry|reflexivity].
    - exists (mk_scalar (cv_type (st !!! input)) v). split; reflexivity. }
  rewrite (run_bind_Ok _ _ _ _ _ Hrun).
  rewrite (run_bind_Ok _ _ _ _ _ (run_Column_view input st)).
  rewrite run_bind, run_lift, cpp_shift_zero by exact Hty. reflexivity.
Qed.

Lemma shift_zero_is_copy_witness :
  fill_for range_store 0%nat (a_value (Some 7))
  ∧ shift 0%nat 0 (a_value (Some 7)) range_store
    = (range_store ++ [int32_column [1; 2; 3; 4; 5]], Ok 2%nat).
Proof.
  split; [exact I|].
  exact (proj1 (shift_zero_is_copy range_store 0%nat (a_value (Some 7)) I)).
Defined.

(* ===================================================================== *)
(** * Tables in the store *)
(* ===================================================================== *)

Lemma read_columns_length st columns :
  length (read_columns st columns) = length columns.
Proof. unfold read_columns. by rewrite length_fmap. Qed.

Lemma read_columns_app st columns1 columns2 :
  read_columns st (columns1 ++ columns2)
  = read_columns st columns1 ++ read_columns st columns2.
Proof. unfold read_columns. by rewrite fmap_app. Qed.

(** Objects made later leave the earlier ones as they were. *)
Lemma read_columns_extend st new columns :
  Forall (allocated st) columns →
  read_columns (st ++ new) columns = read_columns st columns.
Proof.
  intros Hall. unfold read_columns. apply Forall_fmap_ext_1.
  eapply Forall_impl; [exact Hall|]. intros c Hc. by apply lookup_total_app_l.
Qed.

(** The released columns are read back from the new objects. *)
Lemma read_columns_release st columns :
  read_columns (st ++ columns) (seq (length st) (length columns)) = columns.
Proof.
  revert st. induction columns as [|v columns IH]; intros st; [reflexivity|].
  cbn [length seq]. unfold read_columns in *. rewrite fmap_cons. f_equal.
  - by apply list_lookup_total_middle.
  - specialize (IH (st ++ [v])). rewrite <- app_assoc in IH. cbn in IH.
    rewrite length_app in IH. cbn in IH.
    replace (length st + 1)%nat with (S (length st)) in IH by lia. exact IH.
Qed.

Lemma seq_allocated st new :
  Forall (allocated (st ++ new)) (seq (length st) (length new)).
Proof.
  apply Forall_forall. intros c Hc. apply elem_of_seq in Hc.
  unfold allocated. rewrite length_app. lia.
Qed.

Lemma seq_not_allocated st n : Forall (λ c, ¬ allocated st c) (seq (length st) n).
Proof.
  apply Forall_forall. intros c Hc. apply elem_of_seq in Hc.
  unfold allocated. lia.
Qed.

Lemma run_make_table_view columns st :
  same_row_count (read_columns st columns) = true →
  make_table_view columns st = (st, Ok (read_columns st columns)).
Proof.
  intros Hrows. unfold make_table_view. fold (read_columns st columns).
  rewrite Hrows, expects_true. reflexivity.
Qed.

Lemma run_Table_from_unique_ptr_data c_tbl column_names st :
  length column_names = length c_tbl →
  Table_from_unique_ptr c_tbl column_names None st
  = (st ++ c_tbl,
     Ok (mk_Table None column_names (seq (length st) (length c_tbl)))).
Proof.
  intros Hlen. unfold Table_from_unique_ptr, release.
  rewrite run_bind, Hlen, firstn_all. reflexivity.
Qed.

Lemma run_Table_from_unique_ptr_index c_tbl column_names index_names st :
  length c_tbl = (length index_names + length column_names)%nat →
  Table_from_unique_ptr c_tbl column_names (Some index_names) st
  = (st ++ c_tbl,
     Ok (mk_Table
           (Some (mk_Index index_names (seq (length st) (length index_names))))
           column_names
           (seq (length st + length index_names) (length column_names)))).
Proof.
  intros Hlen. unfold Table_from_unique_ptr, release.
  rewrite run_bind. cbv beta iota. rewrite run_bind. cbv beta iota.
  rewrite run_ret. rewrite <- app_assoc.
  rewrite (take_ge (drop _ _)) by (rewrite length_drop; lia).
  rewrite take_drop. rewrite !length_take, length_app, length_take, length_drop.
  repeat f_equal; lia.
Qed.

(** Reading the table made from the result columns gives them back. *)
Lemma read_table_from_index st c_tbl column_names index_names :
  length c_tbl = (length index_names + length column_names)%nat →
  read_table (st ++ c_tbl)
    (mk_Table
       (Some (mk_Index index_names (seq (length st) (length index_names))))
       column_names
       (seq (length st + length index_names) (length column_names)))
  = c_tbl.
Proof.
  intros Hlen. unfold read_table, index_columns. cbn [_index _columns ix_columns].
  rewrite <- seq_app, <- Hlen. apply read_columns_release.
Qed.

Lemma read_data_from_index st c_tbl column_names index_names :
  length c_tbl = (length index_names + length column_names)%nat →
  read_data (st ++ c_tbl)
    (mk_Table
       (Some (mk_Index index_names (seq (length st) (length index_names))))
       column_names
       (seq (length st + length index_names) (length column_names)))
  = drop (length index_names) c_tbl.
Proof.
  intros Hlen.
  pose proof (read_table_from_index st c_tbl column_names index_names Hlen) as H.
  unfold read_table, read_data, index_columns in *.
  cbn [_index _columns ix_columns] in *.
  rewrite read_columns_app in H. rewrite <- H at 2.
  rewrite drop_app_length'; [done|]. by rewrite read_columns_length, length_seq.
Qed.

(* ===================================================================== *)
(** * [gather] *)
(* ===================================================================== *)

Lemma map_entries_Ok map entries :
  is_integer_dtype (cv_type map) = true →
  cv_data map = Some <$> entries →
  cpp_copying.map_entries map = Ok entries.
Proof.
  intros Hint Hdata. unfold cpp_copying.map_entries.
  rewrite Hint, expects_true, Hdata.
  replace (forallb _ (Some <$> entries)) with true.
  - rewrite expects_true. cbn. f_equal.
    rewrite <- list_fmap_compose. apply list_fmap_id.
  - symmetry. apply forallb_forall. intros e He.
    apply list_elem_of_In, list_elem_of_fmap in He as (k & -> & _).
    by apply bool_decide_eq_true_2.
Qed.

Lemma forallb_in_bounds n idx :
  Forall (λ k, 0 <= k < n) idx → forallb (cpp_copying.in_bounds n) idx = true.
Proof.
  intros Hall. apply forallb_forall. intros k Hk.
  apply in_bounds_spec. rewrite Forall_forall in Hall.
  apply Hall. by apply list_elem_of_In.
Qed.

Lemma cpp_gather_Ok source_table gather_map entries :
  is_integer_dtype (cv_type gather_map) = true →
  cv_data gather_map = Some <$> entries →
  Forall (λ k, 0 <= k < num_rows source_table)
         (cpp_copying.wrap_index (num_rows source_table) <$> entries) →
  cpp_copying.gather source_table gather_map
  = Ok (cpp_copying.gather_column
          (cpp_copying.wrap_index (num_rows source_table) <$> entries)
          <$> source_table).
Proof.
  intros Hint Hdata Hbounds. unfold cpp_copying.gather.
  rewrite (map_entries_Ok _ entries) by done. cbn.
  rewrite forallb_in_bounds by exact Hbounds. reflexivity.
Qed.

Lemma same_row_count_lookup t j c :
  same_row_count t = true → t !! j = Some c → cv_size c = num_rows t.
Proof.
  intros Hrows Hj. unfold same_row_count in Hrows.
  rewrite forallb_forall in Hrows. apply Z.eqb_eq, Hrows.
  apply list_elem_of_In. by eapply list_elem_of_lookup_2.
Qed.

Lemma Table_wf_view_length st t :
  Table_wf t →
  length (read_table st t)
  = (length (default [] (_index_names t)) + length (_column_names t))%nat.
Proof.
  intros [Hdata Hindex]. unfold read_table, index_columns, _index_names.
  rewrite read_columns_length, length_app, Hdata.
  destruct (_index t) as [ix|]; cbn; [by rewrite Hindex|done].
Qed.

Lemma run_Table_from_unique_ptr c_tbl t st :
  length c_tbl
  = (length (default [] (_index_names t)) + length (_column_names t))%nat →
  Table_from_unique_ptr c_tbl (_column_names t) (_index_names t) st
  = (st ++ c_tbl, Ok (next_table st t))
  ∧ read_table (st ++ c_tbl) (next_table st t) = c_tbl
  ∧ read_data (st ++ c_tbl) (next_table st t)
    = drop (length (default [] (_index_names t))) c_tbl.
Proof.
  intros Hlen. unfold next_table, _index_names in *.
  destruct (_index t) as [ix|]; cbn [fmap option_fmap option_map default] in *.
  - split; [by apply run_Table_from_unique_ptr_index|].
    split; [by apply read_table_from_index|by apply read_data_from_index].
  - cbn in Hlen. rewrite Nat.add_0_r, <- Hlen.
    split; [by apply run_Table_from_unique_ptr_data|].
    unfold read_table, read_data, index_columns. cbn.
    split; apply read_columns_release.
Qed.

Section gather_properties.
Variables (st : store) (source_table : Table) (gather_map : Column).
Variable entries : list Z.
Hypothesis source_wf : Table_wf source_table.
Hypothesis source_rows : same_row_count (read_table st source_table) = true.
Hypothesis map_integer : is_integer_dtype (cv_type (st !!! gather_map)) = true.
Hypothesis map_entries : cv_data (st !!! gather_map) = Some <$> entries.

Let rows := num_rows (read_table st source_table).
Let idx := cpp_copying.wrap_index rows <$> entries.

Hypothesis map_bounds : Forall (λ k, 0 <= k < rows) idx.

Let gathered := cpp_copying.gather_column idx <$> read_table st source_table.

Lemma run_gather :
  gather source_table gather_map st
  = (st ++ gathered, Ok (next_table st source_table))
  ∧ read_table (st ++ gathered) (next_table st source_table) = gathered.
Proof.
  assert (Hlen : length gathered
                 = (length (default [] (_index_names source_table))
                    + length (_column_names source_table))%nat).
  { unfold gathered. rewrite length_fmap. by apply Table_wf_view_length. }
  destruct (run_Table_from_unique_ptr gathered source_table st Hlen)
    as (Hrun & Hread & _).
  split; [|exact Hread].
  unfold gather.
  rewrite (run_bind_Ok _ _ _ _ _ (run_Column_dtype gather_map st)).
  rewrite map_integer. cbn [negb].
  unfold Table_view.
  rewrite (run_bind_Ok _ _ _ _ _ (run_make_table_view _ st source_rows)).
  rewrite (run_bind_Ok _ _ _ _ _ (run_Column_view gather_map st)).
  rewrite run_bind, run_lift.
  fold (read_table st source_table).
  rewrite (cpp_gather_Ok _ _ entries) by done.
  exact Hrun.
Qed.

Lemma gathered_column j source_column :
  read_table st source_table !! j = Some source_column →
  gathered !! j = Some (cpp_copying.gather_column idx source_column).
Proof. intros Hj. unfold gathered. by rewrite list_lookup_fmap, Hj. Qed.

Lemma gathered_element source_column j i k :
  read_table st source_table !! j = Some source_column →
  entries !! i = Some k →
  ∃ e, cv_data (cpp_copying.gather_column idx source_column) !! i = Some e
       ∧ cv_data source_column !! Z.to_nat (cpp_copying.wrap_index rows k) = Some e.
Proof.
  intros Hj Hi.
  assert (Hk : 0 <= cpp_copying.wrap_index rows k < rows).
  { rewrite Forall_forall in map_bounds. apply map_bounds.
    unfold idx. apply list_elem_of_fmap. exists k. split; [done|].
    by eapply list_elem_of_lookup_2. }
  pose proof (same_row_count_lookup _ _ _ source_rows Hj) as Hsize.
  fold rows in Hsize. unfold cv_size in Hsize.
  destruct (lookup_lt_is_Some_2 (cv_data source_column)
              (Z.to_nat (cpp_copying.wrap_index rows k))) as [e He]; [lia|].
  exists e. split; [|exact He].
  cbn. unfold idx. rewrite !list_lookup_fmap, Hi. cbn. f_equal.
  by apply list_lookup_total_correct.
Qed.
End gather_properties.

(** C4. For a source table (its columns sharing their row count) and an
    integer gather map holding an index in every row, each index lying
    in the table once a negative [k] is wrapped to [size + k]: [gather]
    returns a table with as many columns as the source; every column has
    the type of the source column and as many rows as the map; row [i]
    holds the very element, value or null, of the source row at the
    wrapped index [gather_map[i]].  In particular the column
    [10, null, 30, 40] gathered with the map [3, 1, 0] gives
    [40, null, 10]. *)
Theorem gather_rows :
  (∀ st source_table gather_map entries,
     Table_wf source_table →
     same_row_count (read_table st source_table) = true →
     is_integer_dtype (cv_type (st !!! gather_map)) = true →
     cv_data (st !!! gather_map) = Some <$> entries →
     let rows := num_rows (read_table st source_table) in
     Forall (λ k, 0 <= cpp_copying.wrap_index rows k < rows) entries →
     ∃ st' out,
       gather source_table gather_map st = (st', Ok out)
       ∧ length (read_table st' out) = length (read_table st source_table)
       ∧ ∀ j source_column,
           read_table st source_table !! j = Some source_column →
           ∃ out_column,
             read_table st' out !! j = Some out_column
             ∧ cv_type out_column = cv_type source_column
             ∧ length (cv_data out_column) = length entries
             ∧ ∀ i k, entries !! i = Some k →
                 ∃ e, cv_data out_column !! i = Some e
                      ∧ cv_data source_column
                          !! Z.to_nat (cpp_copying.wrap_index rows k) = Some e)
  ∧ gather gather_source 1%nat gather_store
    = (gather_store ++ [mk_column_view INT32 [Some 40; None; Some 10]],
       Ok (mk_Table None ["a"%string] [2%nat])).
Proof.
  split; [|reflexivity].
  intros st source_table gather_map entries Hwf Hrows Hint Hentries rows Hbounds.
  assert (Hidx : Forall (λ k, 0 <= k < rows)
                        (cpp_copying.wrap_index rows <$> entries))
    by (by apply Forall_fmap).
  destruct (run_gather st source_table gather_map entries
              Hwf Hrows Hint Hentries Hidx) as [Hrun Hread].
  eexists _, _. split; [exact Hrun|]. rewrite Hread.
  split; [by rewrite length_fmap|].
  intros j source_column Hj.
  exists (cpp_copying.gather_column (cpp_copying.wrap_index rows <$> entries)
                                    source_column).
  split; [by apply gathered_column|]. split; [reflexivity|].
  split; [by cbn; rewrite !length_fmap|].
  intros i k Hi. by eapply gathered_element.
Qed.

Lemma gather_rows_witness :
  Table_wf gather_source
  ∧ same_row_count (read_table gather_store gather_source) = true
  ∧ Forall (λ k, 0 <= cpp_copying.wrap_index 4 k < 4) [3; 1; 0]
  ∧ ∃ st' out, gather gather_source 1%nat gather_store = (st', Ok out)
               ∧ length (read_table st' out) = 1%nat.
Proof.
  assert (Hwf : Table_wf gather_source) by (split; [reflexivity|exact I]).
  assert (Hbounds : Forall (λ k, 0 <= cpp_copying.wrap_index 4 k < 4) [3; 1; 0])
    by (repeat constructor; vm_compute; congruence).
  split; [exact Hwf|]. split; [reflexivity|]. split; [exact Hbounds|].
  destruct (proj1 gather_rows gather_store gather_source 1%nat [3; 1; 0]
              Hwf eq_refl eq_refl eq_refl Hbounds) as (st' & out & Hrun & Hlen & _).
  exists st', out. split; [exact Hrun|exact Hlen].
Defined.

(* ===================================================================== *)
(** * [scatter]: the kernel *)
(* ===================================================================== *)

Lemma length_scatter_rows idx src tgt :
  length (cpp_copying.scatter_rows idx src tgt) = length tgt.
Proof.
  revert src tgt. induction idx as [|k idx IH]; intros src tgt; [reflexivity|].
  destruct src as [|v src]; [reflexivity|]. cbn.
  by rewrite IH, length_insert.
Qed.

(** A row that no index addresses keeps its element. *)
Lemma scatter_rows_frame idx src tgt i :
  Forall (λ k, 0 <= k) idx → Z.of_nat i ∉ idx →
  cpp_copying.scatter_rows idx src tgt !! i = tgt !! i.
Proof.
  revert src tgt. induction idx as [|k idx IH]; intros src tgt Hpos Hi;
    [reflexivity|].
  destruct src as [|v src]; [reflexivity|]. cbn.
  apply Forall_cons in Hpos as [Hk Hpos].
  apply not_elem_of_cons in Hi as [Hne Hi].
  rewrite IH by done. apply list_lookup_insert_ne. lia.
Qed.



(** ** What a passed check tells *)

Lemma expects_Ok_inv {A} cond reason (k : outcome A) a :
  (cpp_copying.expects cond reason;; k) = Ok a → cond = true ∧ k = Ok a.
Proof. destruct cond; [done|discriminate]. Qed.

Lemma check_indices_Ok_inv bounds_check n idx :
  cpp_copying.check_indices bounds_check n idx = Ok tt →
  Forall (λ k, 0 <= k < n) idx.
Proof.
  unfold cpp_copying.check_indices.
  destruct (forallb _ _) eqn:Hall.
  - intros _. apply Forall_forall. intros k Hk. apply in_bounds_spec.
    rewrite forallb_forall in Hall. by apply Hall, list_elem_of_In.
  - by destruct bounds_check.
Qed.

Lemma check_indices_Ok bounds_check n idx :
  Forall (λ k, 0 <= k < n) idx →
  cpp_copying.check_indices bounds_check n idx = Ok tt.
Proof.
  intros Hall. unfold cpp_copying.check_indices.
  by rewrite forallb_in_bounds.
Qed.

Lemma map_entries_Ok_inv map entries :
  cpp_copying.map_entries map = Ok entries →
  entries = default 0 <$> cv_data map.
Proof.
  unfold cpp_copying.map_entries. intros H.
  apply expects_Ok_inv in H as [_ H]. apply expects_Ok_inv in H as [_ H].
  by injection H.
Qed.

Lemma bind_Ok_inv {A B} (m : outcome A) (f : A → outcome B) b :
  (m ≫= f) = Ok b → ∃ a, m = Ok a ∧ f a = Ok b.
Proof. destruct m as [a| |]; [|discriminate..]. intros H. by exists a. Qed.

Lemma cpp_scatter_Ok_inv source scatter_map target bounds_check result :
  cpp_copying.scatter source scatter_map target bounds_check = Ok result →
  let idx := cpp_copying.wrap_index (num_rows target)
               <$> (default 0 <$> cv_data scatter_map) in
  length source = length target
  ∧ Forall (λ k, 0 <= k < num_rows target) idx
  ∧ result = zip_with (cpp_copying.scatter_column idx) source target.
Proof.
  unfold cpp_copying.scatter. intros H.
  apply expects_Ok_inv in H as [Hlen H]. apply bool_decide_eq_true_1 in Hlen.
  apply expects_Ok_inv in H as [_ H]. apply expects_Ok_inv in H as [_ H].
  apply bind_Ok_inv in H as (entries & Hentries & H).
  apply map_entries_Ok_inv in Hentries as ->.
  apply bind_Ok_inv in H as ([] & Hcheck & H).
  apply check_indices_Ok_inv in Hcheck. by injection H.
Qed.

Lemma cpp_scatter_scalars_Ok_inv source scatter_map target bounds_check result :
  cpp_copying.scatter_scalars source scatter_map target bounds_check = Ok result →
  let idx := cpp_copying.wrap_index (num_rows target)
               <$> (default 0 <$> cv_data scatter_map) in
  length source = length target
  ∧ Forall (λ k, 0 <= k < num_rows target) idx
  ∧ result = zip_with (cpp_copying.scatter_scalar_column idx) source target.
Proof.
  unfold cpp_copying.scatter_scalars. intros H.
  apply expects_Ok_inv in H as [Hlen H]. apply bool_decide_eq_true_1 in Hlen.
  apply expects_Ok_inv in H as [_ H].
  apply bind_Ok_inv in H as (entries & Hentries & H).
  apply map_entries_Ok_inv in Hentries as ->.
  apply bind_Ok_inv in H as ([] & Hcheck & H).
  apply check_indices_Ok_inv in Hcheck. by injection H.
Qed.

Lemma cpp_scatter_Ok source scatter_map target bounds_check entries :
  length source = length target →
  cv_type <$> source = cv_type <$> target →
  Z.of_nat (length entries) = num_rows source →
  is_integer_dtype (cv_type scatter_map) = true →
  cv_data scatter_map = Some <$> entries →
  Forall (λ k, 0 <= k < num_rows target)
         (cpp_copying.wrap_index (num_rows target) <$> entries) →
  cpp_copying.scatter source scatter_map target bounds_check
  = Ok (zip_with (cpp_copying.scatter_column
                    (cpp_copying.wrap_index (num_rows target) <$> entries))
                 source target).
Proof.
  intros Hlen Hty Hrows Hint Hdata Hbounds. unfold cpp_copying.scatter.
  rewrite bool_decide_eq_true_2, expects_true by done.
  unfold cpp_copying.same_types.
  rewrite bool_decide_eq_true_2, expects_true by done.
  replace (cv_size scatter_map =? num_rows source) with true
    by (symmetry; apply Z.eqb_eq; unfold cv_size;
        by rewrite Hdata, length_fmap).
  rewrite expects_true. cbn.
  rewrite (map_entries_Ok _ entries) by done. cbn.
  rewrite check_indices_Ok by done. reflexivity.
Qed.

Lemma cpp_scatter_scalars_Ok source scatter_map target bounds_check entries :
  length source = length target →
  s_type <$> source = cv_type <$> target →
  is_integer_dtype (cv_type scatter_map) = true →
  cv_data scatter_map = Some <$> entries →
  Forall (λ k, 0 <= k < num_rows target)
         (cpp_copying.wrap_index (num_rows target) <$> entries) →
  cpp_copying.scatter_scalars source scatter_map target bounds_check
  = Ok (zip_with (cpp_copying.scatter_scalar_column
                    (cpp_copying.wrap_index (num_rows target) <$> entries))
                 source target).
Proof.
  intros Hlen Hty Hint Hdata Hbounds. unfold cpp_copying.scatter_scalars.
  rewrite bool_decide_eq_true_2, expects_true by done.
  rewrite bool_decide_eq_true_2, expects_true by done. cbn.
  rewrite (map_entries_Ok _ entries) by done. cbn.
  rewrite check_indices_Ok by done. reflexivity.
Qed.

(* ===================================================================== *)
(** * [scatter]: the bindings *)
(* ===================================================================== *)

Lemma Py_bind_Ok_inv {A B} (m : Py A) (f : A → Py B) st st' b :
  (m ≫= f) st = (st', Ok b) →
  ∃ st1 a, m st = (st1, Ok a) ∧ f a st1 = (st', Ok b).
Proof.
  rewrite run_bind. destruct (m st) as [st1 [a|e|]]; [|discriminate..].
  intros H. by exists st1, a.
Qed.

Lemma make_table_view_Ok_inv columns st st' views :
  make_table_view columns st = (st', Ok views) →
  st' = st ∧ views = read_columns st columns ∧ same_row_count views = true.
Proof.
  unfold make_table_view. fold (read_columns st columns). intros H.
  injection H as <- H. apply expects_Ok_inv in H as [Hrows H].
  injection H as <-. done.
Qed.

(** The end of both scatter helpers: the result columns become the data
    of a new table that takes the index of the target. *)
Lemma run_scatter_result result target_table st :
  length (_column_names target_table) = length result →
  (out_table ← Table_from_unique_ptr result (_column_names target_table) None;
   mret (with_index_of target_table out_table)) st
  = (st ++ result,
     Ok (mk_Table (_index target_table) (_column_names target_table)
                  (seq (length st) (length result)))).
Proof.
  intros Hlen.
  by rewrite (run_bind_Ok _ _ _ _ _
                (run_Table_from_unique_ptr_data _ _ st Hlen)).
Qed.

Lemma run_scalars_for_each scalars columns st :
  for_each (λ '(val, col), dt ← Column_dtype col; Scalar val (Some dt))
           (zip scalars columns) st
  = (st, Ok (zip_with (λ val (col : Column), mk_scalar (cv_type (st !!! col)) val)
                      scalars columns)).
Proof.
  revert columns. induction scalars as [|val scalars IH]; intros columns;
    [reflexivity|].
  destruct columns as [|col columns]; [reflexivity|].
  cbn [zip zip_with for_each].
  rewrite (run_bind_Ok _ _ st st (mk_scalar (cv_type (st !!! col)) val))
    by reflexivity.
  by rewrite (run_bind_Ok _ _ _ _ _ (IH columns)).
Qed.

Lemma _scatter_table_Ok_inv source_table scatter_map target_table bounds_check
    st st' out :
  Table_wf target_table →
  _scatter_table source_table scatter_map target_table bounds_check st
    = (st', Ok out) →
  ∃ result,
    cpp_copying.scatter (read_data st source_table) (st !!! scatter_map)
                        (read_data st target_table) bounds_check = Ok result
    ∧ st' = st ++ result
    ∧ out = mk_Table (_index target_table) (_column_names target_table)
                     (seq (length st) (length result)).
Proof.
  intros [Hnames _]. unfold _scatter_table, Table_data_view. intros H.
  apply Py_bind_Ok_inv in H as (st1 & source_view & Hsource & H).
  apply make_table_view_Ok_inv in Hsource as (-> & -> & _).
  apply Py_bind_Ok_inv in H as (st1 & map_view & Hmap & H).
  rewrite run_Column_view in Hmap. injection Hmap as <- <-.
  apply Py_bind_Ok_inv in H as (st1 & target_view & Htarget & H).
  apply make_table_view_Ok_inv in Htarget as (-> & -> & _).
  apply Py_bind_Ok_inv in H as (st1 & result & Hkernel & H).
  rewrite run_lift in Hkernel. injection Hkernel as <- Hkernel.
  exists result. split; [exact Hkernel|].
  apply cpp_scatter_Ok_inv in Hkernel as (Hlen & _ & Hresult).
  rewrite run_scatter_result in H.
  - by injection H as <- <-.
  - rewrite Hresult, length_zip_with, Hlen, Nat.min_id.
    by rewrite read_columns_length.
Qed.

Lemma _scatter_scalar_Ok_inv scalars scatter_map target_table bounds_check
    st st' out :
  Table_wf target_table →
  _scatter_scalar scalars scatter_map target_table bounds_check st
    = (st', Ok out) →
  ∃ source result,
    cpp_copying.scatter_scalars source (st !!! scatter_map)
                                (read_data st target_table) bounds_check
      = Ok result
    ∧ st' = st ++ result
    ∧ out = mk_Table (_index target_table) (_column_names target_table)
                     (seq (length st) (length result)).
Proof.
  intros [Hnames _]. unfold _scatter_scalar, Table_data_view. intros H.
  apply Py_bind_Ok_inv in H as (st1 & source & Hsource & H).
  rewrite run_scalars_for_each in Hsource. injection Hsource as <- Hsource.
  apply Py_bind_Ok_inv in H as (st1 & map_view & Hmap & H).
  rewrite run_Column_view in Hmap. injection Hmap as <- <-.
  apply Py_bind_Ok_inv in H as (st1 & target_view & Htarget & H).
  apply make_table_view_Ok_inv in Htarget as (-> & -> & _).
  apply Py_bind_Ok_inv in H as (st1 & result & Hkernel & H).
  rewrite run_lift in Hkernel. injection Hkernel as <- Hkernel.
  exists source, result. split; [exact Hkernel|].
  apply cpp_scatter_scalars_Ok_inv in Hkernel as (Hlen & _ & Hresult).
  rewrite run_scatter_result in H.
  - by injection H as <- <-.
  - rewrite Hresult, length_zip_with, Hlen, Nat.min_id.
    by rewrite read_columns_length.
Qed.

Lemma scatter_column_frame idx s t :
  Forall (λ k, 0 <= k) idx →
  column_frame idx t (cpp_copying.scatter_column idx s t).
Proof.
  intros Hpos. split; [reflexivity|]. cbn. split.
  - apply length_scatter_rows.
  - intros i Hi. by apply scatter_rows_frame.
Qed.

Lemma scatter_scalar_column_frame idx s t :
  Forall (λ k, 0 <= k) idx →
  column_frame idx t (cpp_copying.scatter_scalar_column idx s t).
Proof.
  intros Hpos. split; [reflexivity|]. cbn. split.
  - apply length_scatter_rows.
  - intros i Hi. by apply scatter_rows_frame.
Qed.

Lemma zip_with_frame {S} (f : S → column_view → column_view) idx source target :
  length source = length target →
  (∀ s t, column_frame idx t (f s t)) →
  ∀ j t, target !! j = Some t →
    ∃ o, zip_with f source target !! j = Some o ∧ column_frame idx t o.
Proof.
  intros Hlen Hf j t Hj.
  destruct (lookup_lt_is_Some_2 source j) as [s Hs].
  { rewrite Hlen. by eapply lookup_lt_Some. }
  exists (f s t). split; [|apply Hf].
  apply lookup_zip_with_Some. by exists s, t.
Qed.

Lemma run__scatter_table source_table scatter_map target_table bounds_check
    st entries :
  Table_wf target_table →
  same_row_count (read_data st source_table) = true →
  same_row_count (read_data st target_table) = true →
  length (_columns source_table) = length (_columns target_table) →
  cv_type <$> read_data st source_table = cv_type <$> read_data st target_table →
  Z.of_nat (length entries) = num_rows (read_data st source_table) →
  is_integer_dtype (cv_type (st !!! scatter_map)) = true →
  cv_data (st !!! scatter_map) = Some <$> entries →
  let idx := cpp_copying.wrap_index (num_rows (read_data st target_table))
               <$> entries in
  Forall (λ k, 0 <= k < num_rows (read_data st target_table)) idx →
  let result := zip_with (cpp_copying.scatter_column idx)
                         (read_data st source_table)
                         (read_data st target_table) in
  _scatter_table source_table scatter_map target_table bounds_check st
  = (st ++ result,
     Ok (mk_Table (_index target_table) (_column_names target_table)
                  (seq (length st) (length result)))).
Proof.
  intros [Hnames _] Hsrows Htrows Hcols Hty Hentries Hint Hdata idx Hbounds result.
  unfold _scatter_table, Table_data_view.
  rewrite (run_bind_Ok _ _ _ _ _ (run_make_table_view _ st Hsrows)).
  rewrite (run_bind_Ok _ _ _ _ _ (run_Column_view scatter_map st)).
  rewrite (run_bind_Ok _ _ _ _ _ (run_make_table_view _ st Htrows)).
  fold (read_data st source_table). fold (read_data st target_table).
  rewrite (run_bind_Ok _ _ st st result).
  - apply run_scatter_result. unfold result.
    rewrite length_zip_with. unfold read_data.
    rewrite !read_columns_length. lia.
  - rewrite run_lift. f_equal.
    apply (cpp_scatter_Ok _ _ _ _ entries); try done.
    unfold read_data. by rewrite !read_columns_length.
Qed.

Lemma scalars_of_types (scalars : list element) (columns : list nat)
    (st : list column_view) :
  (length columns ≤ length scalars)%nat →
  s_type <$> zip_with (λ val (col : nat), mk_scalar (cv_type (st !!! col)) val)
                      scalars columns
  = cv_type <$> read_columns st columns.
Proof.
  revert scalars. induction columns as [|col columns IH]; intros scalars Hlen.
  - by destruct scalars.
  - destruct scalars as [|val scalars]; [cbn in Hlen; lia|].
    cbn. f_equal. apply IH. cbn in Hlen. lia.
Qed.

Lemma run__scatter_scalar scalars scatter_map target_table bounds_check
    st entries :
  Table_wf target_table →
  (length (_columns target_table) ≤ length scalars)%nat →
  same_row_count (read_data st target_table) = true →
  is_integer_dtype (cv_type (st !!! scatter_map)) = true →
  cv_data (st !!! scatter_map) = Some <$> entries →
  let idx := cpp_copying.wrap_index (num_rows (read_data st target_table))
               <$> entries in
  Forall (λ k, 0 <= k < num_rows (read_data st target_table)) idx →
  ∃ result,
    _scatter_scalar scalars scatter_map target_table bounds_check st
    = (st ++ result,
       Ok (mk_Table (_index target_table) (_column_names target_table)
                    (seq (length st) (length result)))).
Proof.
  intros [Hnames _] Hlen Htrows Hint Hdata idx Hbounds.
  unfold _scatter_scalar, Table_data_view.
  rewrite (run_bind_Ok _ _ _ _ _ (run_scalars_for_each _ _ st)).
  rewrite (run_bind_Ok _ _ _ _ _ (run_Column_view scatter_map st)).
  rewrite (run_bind_Ok _ _ _ _ _ (run_make_table_view _ st Htrows)).
  fold (read_data st target_table).
  set (source := zip_with _ scalars _).
  exists (zip_with (cpp_copying.scatter_scalar_column idx) source
                   (read_data st target_table)).
  assert (Hsource : length source = length (read_data st target_table)).
  { unfold source, read_data. rewrite length_zip_with, read_columns_length. lia. }
  rewrite (run_bind_Ok _ _ st st
             (zip_with (cpp_copying.scatter_scalar_column idx) source
                       (read_data st target_table))).
  - apply run_scatter_result.
    rewrite length_zip_with, Hsource. unfold read_data.
    rewrite read_columns_length. lia.
  - rewrite run_lift. f_equal.
    apply (cpp_scatter_scalars_Ok _ _ _ _ entries); try done.
    by apply scalars_of_types.
Qed.

Lemma scatter_helpers_frame input scatter_map target bounds_check st st' out :
  Table_wf target →
  match input with
  | from_table s => _scatter_table s scatter_map target bounds_check
  | from_values v => _scatter_scalar v scatter_map target bounds_check
  end st = (st', Ok out) →
  let idx := cpp_copying.wrap_index (num_rows (read_data st target))
               <$> (default 0 <$> cv_data (st !!! scatter_map)) in
  ∃ result,
    st' = st ++ result
    ∧ out = mk_Table (_index target) (_column_names target)
                     (seq (length st) (length result))
    ∧ length result = length (read_data st target)
    ∧ ∀ j t, read_data st target !! j = Some t →
        ∃ o, result !! j = Some o ∧ column_frame idx t o.
Proof.
  intros Hwf Hrun idx. destruct input as [s|values].
  - apply _scatter_table_Ok_inv in Hrun as (result & Hkernel & -> & ->);
      [|done].
    apply cpp_scatter_Ok_inv in Hkernel as (Hlen & Hbounds & Hresult).
    exists result. split; [done|]. split; [done|].
    rewrite Hresult. split; [rewrite length_zip_with; lia|].
    apply zip_with_frame; [done|]. intros s' t.
    apply scatter_column_frame.
    eapply Forall_impl; [exact Hbounds|]. intros k Hk. cbn in Hk. lia.
  - apply _scatter_scalar_Ok_inv in Hrun as (source & result & Hkernel & -> & ->);
      [|done].
    apply cpp_scatter_scalars_Ok_inv in Hkernel as (Hlen & Hbounds & Hresult).
    exists result. split; [done|]. split; [done|].
    rewrite Hresult. split; [rewrite length_zip_with; lia|].
    apply zip_with_frame; [done|]. intros s' t.
    apply scatter_scalar_column_frame.
    eapply Forall_impl; [exact Hbounds|]. intros k Hk. cbn in Hk. lia.
Qed.

Lemma read_data_extend st new t :
  Forall (allocated st) (_columns t) →
  read_data (st ++ new) t = read_data st t.
Proof. apply read_columns_extend. Qed.

(** C5. For every call of [scatter] that returns, with a table or with
    scalars as the source and a target made of existing columns: the
    store is only extended, so the columns of the target hold what they
    held; the returned table has the column names and the index of the
    target and new columns as its data, as many as the target, each of
    the type and row count of the target column; and every row whose
    index no wrapped entry of the scatter map addresses holds the
    element of the target.  And the call does return when the source
    fits the target and every wrapped entry of the map lies in the
    target. *)
Theorem scatter_frame :
  (∀ st input scatter_map target bounds_check st' out,
     Table_wf target →
     Forall (allocated st) (_columns target) →
     scatter input scatter_map target bounds_check st = (st', Ok out) →
     let idx := cpp_copying.wrap_index (num_rows (read_data st target))
                  <$> map_indices st scatter_map in
     (∃ new, st' = st ++ new)
     ∧ read_data st' target = read_data st target
     ∧ Forall (λ c, ¬ allocated st c) (_columns out)
     ∧ _column_names out = _column_names target
     ∧ _index out = _index target
     ∧ length (read_data st' out) = length (read_data st target)
     ∧ ∀ j target_column,
         read_data st target !! j = Some target_column →
         ∃ out_column,
           read_data st' out !! j = Some out_column
           ∧ column_frame idx target_column out_column)
  ∧ (∀ st input scatter_map target bounds_check entries,
       Table_wf target →
       Forall (allocated st) (_columns target) →
       same_row_count (read_data st target) = true →
       source_fits st input target entries →
       map_holds st scatter_map entries →
       Forall (λ k, 0 <= k < num_rows (read_data st target))
              (cpp_copying.wrap_index (num_rows (read_data st target))
                 <$> entries) →
       ∃ st' out,
         scatter input scatter_map target bounds_check st = (st', Ok out)).
Proof.
  split.
  - intros st input scatter_map target bounds_check st' out Hwf Halloc Hrun idx.
    unfold scatter in Hrun.
    apply Py_bind_Ok_inv in Hrun as (st1 & map_column & Hmap & Hrun).
    assert (∃ new1, st1 = st ++ new1
              ∧ default 0 <$> cv_data (st1 !!! map_column)
                = map_indices st scatter_map) as (new1 & -> & Hidx).
    { destruct scatter_map as [c|values].
      - injection Hmap as <- <-. exists []. by rewrite app_nil_r.
      - unfold as_column, Column_from_unique_ptr in Hmap.
        injection Hmap as <- <-. eexists. split; [done|].
        rewrite list_lookup_total_middle by done. cbn.
        rewrite <- list_fmap_compose. apply list_fmap_id. }
    apply scatter_helpers_frame in Hrun as (result & -> & -> & Hlen & Hframe);
      [|done].
    rewrite Hidx, read_data_extend in Hframe by done.
    rewrite read_data_extend in Hlen by done.
    assert (Hread : read_data ((st ++ new1) ++ result)
                      (mk_Table (_index target) (_column_names target)
                         (seq (length (st ++ new1)) (length result)))
                    = result) by apply read_columns_release.
    split; [by exists (new1 ++ result); rewrite app_assoc|].
    split; [by rewrite <- app_assoc; apply read_data_extend|].
    split.
    { cbn. apply Forall_forall. intros c Hc. apply elem_of_seq in Hc.
      unfold allocated. rewrite length_app in Hc. lia. }
    split; [done|]. split; [done|].
    rewrite Hread. split; [done|]. exact Hframe.
  - intros st input scatter_map target bounds_check entries
           Hwf Halloc Hrows Hfits Hmap Hbounds.
    unfold scatter.
    assert (∃ new1 c,
              match scatter_map with
              | map_column c => mret c
              | map_values values => as_column values
              end st = (st ++ new1, Ok c)
              ∧ is_integer_dtype (cv_type ((st ++ new1) !!! c)) = true
              ∧ cv_data ((st ++ new1) !!! c) = Some <$> entries)
      as (new1 & c & Hrun & Hint & Hdata).
    { destruct scatter_map as [c|values]; cbn in Hmap.
      - exists [], c. rewrite app_nil_r. by destruct Hmap.
      - subst values. eexists _, _. split; [reflexivity|].
        by rewrite list_lookup_total_middle. }
    rewrite (run_bind_Ok _ _ _ _ _ Hrun).
    destruct input as [s|values]; cbn in Hfits.
    + destruct Hfits as (Hsalloc & Hsrows & Hcols & Hty & Hentries).
      eexists _, _.
      apply (run__scatter_table _ _ _ _ _ entries); try done;
        rewrite ?read_data_extend by done; done.
    + destruct (run__scatter_scalar values c target bounds_check
                  (st ++ new1) entries) as (result & Hresult); try done;
        rewrite ?read_data_extend by done; try done.
      by eexists _, _.
Qed.

Lemma scatter_frame_witness :
  Table_wf scatter_target_table
  ∧ Forall (allocated range_store) (_columns scatter_target_table)
  ∧ scatter (from_table scatter_source_table) (map_values [0; -1])
            scatter_target_table true range_store
    = (range_store ++ [mk_column_view INT64 [Some 0; Some (-1)]; int32_column [9; 2; 3; 4; 8]],
       Ok (mk_Table None ["a"%string] [3%nat]))
  ∧ read_data (range_store ++ [mk_column_view INT64 [Some 0; Some (-1)];
                                int32_column [9; 2; 3; 4; 8]])
              scatter_target_table
    = read_data range_store scatter_target_table.
Proof.
  assert (Hwf : Table_wf scatter_target_table) by (split; [reflexivity|exact I]).
  assert (Halloc : Forall (allocated range_store) (_columns scatter_target_table))
    by (repeat constructor).
  assert (Hrun : scatter (from_table scatter_source_table) (map_values [0; -1])
                         scatter_target_table true range_store
                 = (range_store ++ [mk_column_view INT64 [Some 0; Some (-1)];
                                    int32_column [9; 2; 3; 4; 8]],
                    Ok (mk_Table None ["a"%string] [3%nat])))
    by reflexivity.
  split; [exact Hwf|]. split; [exact Halloc|]. split; [exact Hrun|].
  exact (proj1 (proj2 (proj1 scatter_frame _ _ _ _ _ _ _ Hwf Halloc Hrun))).
Defined.

(* ===================================================================== *)
(** * [gather] then [scatter] *)
(* ===================================================================== *)








Section roundtrip.
Variables (st : list column_view) (T T' : Table) (P : nat).
Variable entries : list Z.
Variable bounds_check : bool.
Hypothesis T_wf : Table_wf T.
Hypothesis T'_wf : Table_wf T'.
Hypothesis T'_allocated : Forall (allocated st) (_columns T').
Hypothesis P_allocated : allocated st P.
Hypothesis T_rows : same_row_count (read_table st T) = true.
Hypothesis P_integer : is_integer_dtype (cv_type (st !!! P)) = true.
Hypothesis P_entries : cv_data (st !!! P) = Some <$> entries.

Let rows := num_rows (read_data st T).
Let idx := cpp_copying.wrap_index rows <$> entries.

Hypothesis P_bijection : idx ≡ₚ seqZ 0 rows.
Hypothesis same_types : cv_type <$> read_data st T' = cv_type <$> read_data st T.
Hypothesis same_sizes : cv_size <$> read_data st T' = cv_size <$> read_data st T.







Let gathered := cpp_copying.gather_column idx <$> read_table st T.
Let st1 := st ++ gathered.






End roundtrip.



(* ===================================================================== *)
(** * The two classes of errors *)
(* ===================================================================== *)

Section error_classes.
Variable cudaGetErrorName : cudaError_t → string.
Variable cudaGetErrorString : cudaError_t → string.
Variable runtime : Type.
Variable cudaStreamSynchronize : nat → runtime → runtime * cudaError_t.
Variable cudaGetLastError : runtime → runtime * cudaError_t.

Lemma CUDF_EXPECTS_Raise_inv file line cond reason e :
  CUDF_EXPECTS file line cond reason = Raise e →
  cond = false ∧ e = logic_error (logic_error_message file line reason).
Proof.
  unfold CUDF_EXPECTS. destruct cond; cbn; [discriminate|].
  intros [= <-]. done.
Qed.

Lemma CUDA_TRY_Raise_inv status file line events e :
  CUDA_TRY cudaGetErrorName cudaGetErrorString status file line
    = (events, Raise e) →
  status ≠ cudaSuccess ∧ events = []
  ∧ e = cuda_error (cuda_error_message cudaGetErrorName cudaGetErrorString
                                       status file line).
Proof.
  unfold CUDA_TRY, throw_cuda_error.
  destruct (Z.eqb_spec cudaSuccess status) as [Heq|Hne]; cbv [negb];
    [discriminate|].
  intros [= <- <-]. done.
Qed.

Lemma check_stream_Raise_inv stream file line rt rt' events e :
  check_stream cudaGetErrorName cudaGetErrorString runtime
               cudaStreamSynchronize cudaGetLastError stream file line rt
    = (rt', events, Raise e) →
  ∃ error,
    error ≠ cudaSuccess
    ∧ e = cuda_error (cuda_error_message cudaGetErrorName cudaGetErrorString
                                         error file line)
    ∧ ((events = [StreamSynchronize stream]
        ∧ cudaStreamSynchronize stream rt = (rt', error))
       ∨ (events = [StreamSynchronize stream; GetLastError]
          ∧ ∃ rt1, cudaStreamSynchronize stream rt = (rt1, cudaSuccess)
                   ∧ cudaGetLastError rt1 = (rt', error))).
Proof.
  unfold check_stream, throw_cuda_error.
  destruct (cudaStreamSynchronize stream rt) as [rt1 error1].
  destruct (Z.eqb_spec cudaSuccess error1) as [Heq1|Hne1]; cbv [negb].
  - destruct (cudaGetLastError rt1) as [rt2 error2] eqn:Hlast.
    destruct (Z.eqb_spec cudaSuccess error2) as [Heq2|Hne2]; cbv [negb];
      [discriminate|].
    intros [= <- <- <-]. exists error2. split; [done|]. split; [done|].
    right. split; [done|]. exists rt1. by rewrite <- Heq1.
  - intros [= <- <- <-]. exists error1. split; [done|]. split; [done|].
    by left.
Qed.

(** C8, as amended. Whatever [CUDF_EXPECTS], [CUDA_TRY] and
    [check_stream] raise falls in one of two distinguishable classes.  A
    [CUDF_EXPECTS] whose condition is false raises, on the spot and
    without any call into the CUDA runtime, a logic error whose message
    carries the source location and the reason.  A CUDA fault is raised
    as a device error whose message wraps the source location and the
    code, the name and the message of the fault: by [check_stream] once
    it has synchronized the stream (the fault being what the
    synchronization or the last-error query returned), and by [CUDA_TRY]
    at the failing runtime call itself, without a synchronization. *)
Theorem error_classes m rt rt' events e :
  run_macro cudaGetErrorName cudaGetErrorString runtime
            cudaStreamSynchronize cudaGetLastError m rt
    = (rt', events, Raise e) →
  is_logic_error e = negb (is_cuda_error e)
  ∧ match m with
    | expects_at file line cond reason =>
        cond = false ∧ rt' = rt ∧ events = []
        ∧ e = logic_error (logic_error_message file line reason)
    | cuda_try_at file line status =>
        status ≠ cudaSuccess ∧ rt' = rt ∧ events = []
        ∧ e = cuda_error (cuda_error_message cudaGetErrorName cudaGetErrorString
                                             status file line)
    | check_stream_at file line stream =>
        ∃ error,
          error ≠ cudaSuccess
          ∧ e = cuda_error (cuda_error_message cudaGetErrorName
                              cudaGetErrorString error file line)
          ∧ ∃ later, events = StreamSynchronize stream :: later
    end.
Proof.
  destruct m as [file line cond reason|file line status|file line stream]; cbn.
  - injection 1 as <- <- Hraise.
    apply CUDF_EXPECTS_Raise_inv in Hraise as [-> ->]. done.
  - destruct (CUDA_TRY _ _ _ _ _) as [events' o] eqn:Htry.
    injection 1 as <- <- ->.
    apply CUDA_TRY_Raise_inv in Htry as (Hstatus & -> & ->). done.
  - intros Hcheck.
    apply check_stream_Raise_inv in Hcheck
      as (error & Herror & -> & [[-> _]|[-> _]]).
    + split; [done|]. exists error. eauto.
    + split; [done|]. exists error. eauto.
Qed.
End error_classes.

Lemma error_classes_witness :
  run_macro example_error_name example_error_string cudaError_t
            example_synchronize example_last_error
            (check_stream_at "copying.cu" 57 0%nat) 700
    = (cudaSuccess, [StreamSynchronize 0%nat],
       Raise (cuda_error
                "CUDA error encountered at: copying.cu:57: 700 cudaErrorIllegalAddress an illegal memory access was encountered"))
  ∧ is_logic_error
      (cuda_error
         "CUDA error encountered at: copying.cu:57: 700 cudaErrorIllegalAddress an illegal memory access was encountered")
    = false.
Proof.
  assert (Hrun :
    run_macro example_error_name example_error_string cudaError_t
              example_synchronize example_last_error
              (check_stream_at "copying.cu" 57 0%nat) 700
    = (cudaSuccess, [StreamSynchronize 0%nat],
       Raise (cuda_error
                "CUDA error encountered at: copying.cu:57: 700 cudaErrorIllegalAddress an illegal memory access was encountered")))
    by reflexivity.
  split; [exact Hrun|].
  exact (proj1 (error_classes _ _ _ _ _ _ _ _ _ _ Hrun)).
Defined.

(** C8, as stated, fails: [CUDA_TRY] on a runtime call that returned
    [cudaErrorMemoryAllocation] (2) raises the device error at once, and
    no stream has been synchronized. *)
Lemma device_error_without_synchronization :
  run_macro example_error_name example_error_string cudaError_t
            example_synchronize example_last_error
            (cuda_try_at "copying.cu" 10 2) cudaSuccess
    = (cudaSuccess, [],
       Raise (cuda_error
                "CUDA error encountered at: copying.cu:10: 2 cudaErrorMemoryAllocation out of memory"))
  ∧ ¬ two_classes_as_stated example_error_name example_error_string
        cudaError_t example_synchronize example_last_error.
Proof.
  split; [reflexivity|].
  intros Hclaim.
  destruct (Hclaim (cuda_try_at "copying.cu" 10 2) cudaSuccess _ _ _ eq_refl)
    as [[Hlogic _]|[_ [stream Hsync]]].
  - discriminate Hlogic.
  - by apply not_elem_of_nil in Hsync.
Qed.

(* ===================================================================== *)
(** * What the bindings leave of the store *)
(* ===================================================================== *)

Section keeps.
Context (R : relation (list column_view)) `{!PreOrder R}.

Lemma keeps_ret {A} (a : A) : keeps R (mret a : Py A).
Proof. intros st. reflexivity. Qed.

Lemma keeps_lift {A} (o : outcome A) : keeps R (lift o).
Proof. intros st. reflexivity. Qed.

Lemma keeps_py_raise {A} e : keeps R (py_raise e : Py A).
Proof. apply keeps_lift. Qed.

Lemma keeps_bind {A B} (m : Py A) (f : A → Py B) :
  keeps R m → (∀ a, keeps R (f a)) → keeps R (m ≫= f).
Proof.
  intros Hm Hf st. rewrite run_bind. specialize (Hm st).
  destruct (m st) as [st1 [a|e|]]; [|exact Hm..].
  etrans; [exact Hm|apply Hf].
Qed.

Lemma keeps_Column_view c : keeps R (Column_view c).
Proof. intros st. reflexivity. Qed.

Lemma keeps_Column_size c : keeps R (Column_size c).
Proof. intros st. reflexivity. Qed.

Lemma keeps_Column_dtype c : keeps R (Column_dtype c).
Proof. intros st. reflexivity. Qed.

Lemma keeps_make_table_view columns : keeps R (make_table_view columns).
Proof. intros st. reflexivity. Qed.

Lemma keeps_for_each {A B} (f : A → Py B) l :
  (∀ a, keeps R (f a)) → keeps R (for_each f l).
Proof.
  intros Hf. induction l as [|a l IH]; [apply keeps_ret|]. cbn [for_each].
  apply keeps_bind; [apply Hf|]. intros b.
  apply keeps_bind; [exact IH|]. intros bs. apply keeps_ret.
Qed.

Lemma keeps_Scalar value dt : keeps R (Scalar value dt).
Proof. destruct dt, value; first [apply keeps_ret|apply keeps_py_raise]. Qed.

Lemma keeps_Scalar_of obj dt : keeps R (Scalar_of obj dt).
Proof. destruct obj; first [apply keeps_Scalar|apply keeps_py_raise]. Qed.

Lemma keeps__index_column_names t : keeps R (_index_column_names t).
Proof.
  unfold _index_column_names.
  destruct (_index t); first [apply keeps_ret|apply keeps_py_raise].
Qed.
End keeps.

(** One step of a proof that a binding keeps a relation: the structure
    of the computation first, then the case at hand. *)
Ltac keeps_apply lem := apply lem; try apply _.

Ltac keeps_step :=
  first
    [ keeps_apply @keeps_bind; [|intros ?]
    | keeps_apply @keeps_ret | keeps_apply @keeps_lift
    | keeps_apply @keeps_py_raise
    | keeps_apply @keeps_Column_view | keeps_apply @keeps_Column_size
    | keeps_apply @keeps_Column_dtype | keeps_apply @keeps_make_table_view
    | keeps_apply @keeps_Scalar | keeps_apply @keeps_Scalar_of
    | keeps_apply @keeps__index_column_names
    | keeps_apply @keeps_for_each; intros ?
    | match goal with
      | |- keeps _ (match ?x with _ => _ end) => destruct x
      end ].

(** ** New objects only *)

Lemma keeps_Column_from_unique_ptr v : keeps prefix (Column_from_unique_ptr v).
Proof. intros st. by apply prefix_app_r. Qed.

Lemma keeps_release columns : keeps prefix (release columns).
Proof. intros st. by apply prefix_app_r. Qed.

Lemma keeps_Table_from_unique_ptr c_tbl column_names index_names :
  keeps prefix (Table_from_unique_ptr c_tbl column_names index_names).
Proof.
  unfold Table_from_unique_ptr.
  repeat first [apply keeps_release | keeps_step].
Qed.

Ltac extends_step :=
  first [ apply keeps_Column_from_unique_ptr | apply keeps_release
        | apply keeps_Table_from_unique_ptr | keeps_step ].

Lemma keeps_copy_column input_column : keeps prefix (copy_column input_column).
Proof. unfold copy_column. repeat extends_step. Qed.

Lemma keeps__copy_range input_column target_column input_begin input_end
    target_begin :
  keeps prefix (_copy_range input_column target_column
                            input_begin input_end target_begin).
Proof. unfold _copy_range. repeat extends_step. Qed.

Lemma keeps_gather source_table gather_map :
  keeps prefix (gather source_table gather_map).
Proof. unfold gather, Table_view. repeat extends_step. Qed.

Lemma keeps_scatter input scatter_map target bounds_check :
  keeps prefix (scatter input scatter_map target bounds_check).
Proof.
  unfold scatter, _scatter_table, _scatter_scalar, Table_data_view, as_column.
  repeat extends_step.
Qed.

Lemma keeps_copy_if_else lhs rhs boolean_mask :
  keeps prefix (copy_if_else lhs rhs boolean_mask).
Proof.
  unfold copy_if_else, _copy_if_else_column_column, _copy_if_else_column_scalar,
    _copy_if_else_scalar_column, _copy_if_else_scalar_scalar.
  repeat extends_step.
Qed.

Lemma keeps_boolean_mask_scatter input target_table boolean_mask :
  keeps prefix (boolean_mask_scatter input target_table boolean_mask).
Proof.
  unfold boolean_mask_scatter, _boolean_mask_scatter_table,
    _boolean_mask_scatter_scalar, Table_view.
  repeat extends_step.
Qed.

Lemma keeps_shift input offset fill_value :
  keeps prefix (shift input offset fill_value).
Proof. unfold shift. repeat extends_step. Qed.

Lemma keeps_copy_range_out_of_place input_column target_column
    input_begin input_end target_begin target_end :
  keeps prefix (copy_range input_column target_column input_begin input_end
                           target_begin target_end false).
Proof.
  unfold copy_range, normalize_bound.
  repeat first [progress cbv iota | apply keeps__copy_range | extends_step].
Qed.

(** X1. The bindings that work out of place never touch what exists:
    whatever the arguments, and whether the call returns or raises, the
    store after the call is the store before it followed by the objects
    the call made.  For [scatter] this is said of the calls whose
    behaviour is defined: a scatter without the bounds check at an index
    out of range is left out, nothing being known of the store after
    it. *)
Theorem bindings_only_add_objects :
  (∀ input_column st, st `prefix_of` (copy_column input_column st).1)
  ∧ (∀ input_column target_column input_begin input_end target_begin
       target_end st,
       st `prefix_of` (copy_range input_column target_column input_begin
                                  input_end target_begin target_end false st).1)
  ∧ (∀ source_table gather_map st,
       st `prefix_of` (gather source_table gather_map st).1)
  ∧ (∀ input scatter_map target bounds_check st,
       (scatter input scatter_map target bounds_check st).2 ≠ Undefined →
       st `prefix_of` (scatter input scatter_map target bounds_check st).1)
  ∧ (∀ lhs rhs boolean_mask st,
       st `prefix_of` (copy_if_else lhs rhs boolean_mask st).1)
  ∧ (∀ input target_table boolean_mask st,
       st `prefix_of` (boolean_mask_scatter input target_table boolean_mask st).1)
  ∧ (∀ input offset fill_value st,
       st `prefix_of` (shift input offset fill_value st).1).
Proof.
  repeat split; intros.
  - apply keeps_copy_column.
  - apply keeps_copy_range_out_of_place.
  - apply keeps_gather.
  - apply keeps_scatter.
  - apply keeps_copy_if_else.
  - apply keeps_boolean_mask_scatter.
  - apply keeps_shift.
Qed.

Lemma bindings_only_add_objects_witness :
  (scatter (from_table scatter_source_table) (map_values [0; -1])
           scatter_target_table false range_store).2 ≠ Undefined
  ∧ range_store
      `prefix_of` (scatter (from_table scatter_source_table)
                           (map_values [0; -1]) scatter_target_table false
                           range_store).1
  ∧ (scatter (from_table scatter_source_table) (map_values [0; -1])
             scatter_target_table false range_store).1
    = range_store ++ [mk_column_view INT64 [Some 0; Some (-1)];
                      int32_column [9; 2; 3; 4; 8]].
Proof.
  destruct bindings_only_add_objects as (_ & _ & _ & Hscatter & _).
  split; [discriminate|]. split; [|reflexivity].
  apply Hscatter. discriminate.
Defined.

(** ** The in-place range copy *)

#[local] Instance only_writes_PreOrder target : PreOrder (only_writes target).
Proof.
  split.
  - intros st. by split.
  - intros st1 st2 st3 [Hlen12 H12] [Hlen23 H23]. split; [congruence|].
    intros c Hc. by rewrite H23, H12.
Qed.

Lemma keeps_Column_store target v :
  keeps (only_writes target) (Column_store target v).
Proof.
  intros st. split; [apply length_insert|]. cbn.
  intros c Hc. by apply list_lookup_total_insert_ne.
Qed.

Lemma keeps__copy_range_in_place input_column target_column
    input_begin input_end target_begin :
  keeps (only_writes target_column)
        (_copy_range_in_place input_column target_column
                              input_begin input_end target_begin).
Proof.
  unfold _copy_range_in_place, cpp_copying.copy_range_in_place.
  repeat first [apply keeps_Column_store | keeps_step].
Qed.

Lemma keeps_copy_range_in_place input_column target_column
    input_begin input_end target_begin target_end :
  keeps (only_writes target_column)
        (copy_range input_column target_column input_begin input_end
                    target_begin target_end true).
Proof.
  unfold copy_range, normalize_bound.
  repeat first [progress cbv iota | apply keeps__copy_range_in_place
               | keeps_step].
Qed.

(** ** Arguments that do not fit *)

Lemma to_size_type_Raise z :
  in_size_type z = false → to_size_type z = Raise (py_error OverflowError).
Proof. intros H. unfold to_size_type. by rewrite H. Qed.

(** X3. [copy_range] and [shift] take their integers as 32-bit C
    integers: when one of the four bounds of [copy_range], or the offset
    of [shift], does not fit, the call raises [OverflowError] and the
    store is as before, whatever the columns are. *)
Theorem integer_arguments_must_fit :
  (∀ input_column target_column input_begin input_end target_begin target_end
     inplace st,
     in_size_type input_begin && in_size_type input_end
       && in_size_type target_begin && in_size_type target_end = false →
     copy_range input_column target_column input_begin input_end
                target_begin target_end inplace st
     = (st, Raise (py_error OverflowError)))
  ∧ (∀ input offset fill_value st,
       in_size_type offset = false →
       shift input offset fill_value st = (st, Raise (py_error OverflowError))).
Proof.
  split.
  - intros input_column target_column input_begin input_end target_begin
           target_end inplace st Hfit.
    unfold copy_range.
    destruct (in_size_type input_begin) eqn:Hib;
      [|by rewrite run_bind, run_lift, to_size_type_Raise].
    rewrite (run_bind_Ok _ _ st st input_begin)
      by (by rewrite run_lift, to_size_type_Ok).
    destruct (in_size_type input_end) eqn:Hie;
      [|by rewrite run_bind, run_lift, to_size_type_Raise].
    rewrite (run_bind_Ok _ _ st st input_end)
      by (by rewrite run_lift, to_size_type_Ok).
    destruct (in_size_type target_begin) eqn:Htb;
      [|by rewrite run_bind, run_lift, to_size_type_Raise].
    rewrite (run_bind_Ok _ _ st st target_begin)
      by (by rewrite run_lift, to_size_type_Ok).
    destruct (in_size_type target_end) eqn:Hte; [discriminate|].
    by rewrite run_bind, run_lift, to_size_type_Raise.
  - intros input offset fill_value st Hfit. unfold shift.
    by rewrite run_bind, run_lift, to_size_type_Raise.
Qed.

Lemma integer_arguments_must_fit_witness :
  in_size_type 0 && in_size_type 2 && in_size_type (2 ^ 31) && in_size_type 3
    = false
  ∧ copy_range 1%nat 0%nat 0 2 (2 ^ 31) 3 false range_store
    = (range_store, Raise (py_error OverflowError))
  ∧ shift 0%nat (- 2 ^ 31 - 1) (a_value None) range_store
    = (range_store, Raise (py_error OverflowError)).
Proof.
  split; [reflexivity|]. split.
  - apply (proj1 integer_arguments_must_fit). reflexivity.
  - apply (proj2 integer_arguments_must_fit). reflexivity.
Defined.

(* ===================================================================== *)
(** * [gather]: the map check and the shape of the result *)
(* ===================================================================== *)

Lemma cpp_gather_Raise_inv source_table gather_map e :
  cpp_copying.gather source_table gather_map = Raise e →
  is_logic_error e = true ∨ is_cuda_error e = true.
Proof.
  unfold cpp_copying.gather, cpp_copying.map_entries, cpp_copying.expects,
    CUDF_EXPECTS.
  destruct (is_integer_dtype _); cbn; [|intros [= <-]; by left].
  destruct (forallb _ (cv_data gather_map)); cbn; [|intros [= <-]; by left].
  destruct (forallb _ _); cbn; [discriminate|intros [= <-]; by right].
Qed.

Lemma Table_from_unique_ptr_Raise_inv c_tbl column_names index_names st st' e :
  Table_from_unique_ptr c_tbl column_names index_names st ≠ (st', Raise e).
Proof.
  unfold Table_from_unique_ptr, release.
  destruct index_names; rewrite !run_bind; cbn; discriminate.
Qed.

(** X4. The [assert] on the type of the map is the first statement of
    [gather] and nothing but an assertion.  Where assertions are enabled
    a map that is not of an integer type stops the call with
    [AssertionError] before the table is looked at, the store being as
    before.  Where they are disabled the call never raises
    [AssertionError]: the map goes to the kernel as it is, and what is
    raised is a logic error or a device error of the library.  A map of
    an integer type makes the call the same in both modes. *)
Theorem gather_asserts_integer_map source_table gather_map st :
  gather_under true source_table gather_map st
  = gather source_table gather_map st
  ∧ (is_integer_dtype (cv_type (st !!! gather_map)) = true →
     ∀ assertions,
       gather_under assertions source_table gather_map st
       = gather source_table gather_map st)
  ∧ (is_integer_dtype (cv_type (st !!! gather_map)) = false →
     gather_under true source_table gather_map st
     = (st, Raise (py_error AssertionError)))
  ∧ (∀ st' e,
       gather_under false source_table gather_map st = (st', Raise e) →
       is_logic_error e = true ∨ is_cuda_error e = true).
Proof.
  split; [reflexivity|]. split; [|split].
  - intros Hmap assertions. unfold gather_under, gather.
    rewrite !(run_bind_Ok _ _ _ _ _ (run_Column_dtype gather_map st)).
    rewrite Hmap. by destruct assertions.
  - intros Hmap. unfold gather_under.
    rewrite (run_bind_Ok _ _ _ _ _ (run_Column_dtype gather_map st)).
    by rewrite Hmap.
  - intros st' e. unfold gather_under.
    rewrite (run_bind_Ok _ _ _ _ _ (run_Column_dtype gather_map st)).
    cbn [andb]. rewrite run_bind. unfold Table_view, make_table_view.
    unfold cpp_copying.expects, CUDF_EXPECTS.
    destruct (same_row_count _); cbn; [|intros [= _ <-]; by left].
    rewrite run_bind, run_Column_view, run_bind, run_lift.
    destruct (cpp_copying.gather _ _) as [c_result|e'|] eqn:Hkernel.
    + intros H. by apply Table_from_unique_ptr_Raise_inv in H.
    + intros [= _ <-]. by apply cpp_gather_Raise_inv in Hkernel.
    + discriminate.
Qed.

Lemma gather_asserts_integer_map_witness :
  is_integer_dtype (cv_type (mask_store !!! 4%nat)) = false
  ∧ gather_under true mask_target 4%nat mask_store
    = (mask_store, Raise (py_error AssertionError))
  ∧ gather mask_target 4%nat mask_store
    = (mask_store, Raise (py_error AssertionError))
  ∧ gather_under false mask_target 4%nat mask_store
    = (mask_store,
       Raise (logic_error
                "cuDF failure at: cudf/copying:0: index map must be of integer type"))
  ∧ is_integer_dtype (cv_type (gather_store !!! 1%nat)) = true
  ∧ gather_under false gather_source 1%nat gather_store
    = gather gather_source 1%nat gather_store.
Proof.
  destruct (gather_asserts_integer_map mask_target 4%nat mask_store)
    as (Hsame & _ & Hassert & _).
  destruct (gather_asserts_integer_map gather_source 1%nat gather_store)
    as (_ & Hinteger & _ & _).
  split; [reflexivity|]. split; [by apply Hassert|].
  split; [rewrite <- Hsame; by apply Hassert|].
  split; [reflexivity|]. split; [reflexivity|].
  by apply Hinteger.
Defined.

Lemma release_Ok_inv columns st st' objects :
  release columns st = (st', Ok objects) →
  st' = st ++ columns ∧ objects = seq (length st) (length columns).
Proof. unfold release. by intros [= <- <-]. Qed.

Lemma Table_from_unique_ptr_Ok_inv c_tbl column_names index_names st st' out :
  Table_from_unique_ptr c_tbl column_names index_names st = (st', Ok out) →
  _column_names out = column_names
  ∧ ix_column_names <$> _index out = index_names
  ∧ Forall (λ c, ¬ allocated st c) (index_columns out ++ _columns out).
Proof.
  unfold Table_from_unique_ptr. destruct index_names as [names|]; intros H.
  - apply Py_bind_Ok_inv in H as (st1 & index & Hindex & H).
    apply release_Ok_inv in Hindex as [-> ->].
    apply Py_bind_Ok_inv in H as (st2 & data & Hdata & H).
    apply release_Ok_inv in Hdata as [-> ->].
    rewrite run_ret in H. injection H as <- <-.
    split; [done|]. split; [done|]. unfold index_columns. cbn.
    apply Forall_app. split; [apply seq_not_allocated|].
    apply Forall_forall. intros c Hc. apply elem_of_seq in Hc.
    unfold allocated. rewrite length_app in Hc. lia.
  - apply Py_bind_Ok_inv in H as (st1 & data & Hdata & H).
    apply release_Ok_inv in Hdata as [-> ->].
    rewrite run_ret in H. injection H as <- <-.
    split; [done|]. split; [done|]. apply seq_not_allocated.
Qed.

(** X5. When [gather] returns, the table it returns has the column names
    of the source, an index exactly when the source has one, under the
    same index names, and every column of it, index included, is an
    object that did not exist before the call. *)
Theorem gather_result_shape source_table gather_map st st' out :
  gather source_table gather_map st = (st', Ok out) →
  _column_names out = _column_names source_table
  ∧ ix_column_names <$> _index out = ix_column_names <$> _index source_table
  ∧ Forall (λ c, ¬ allocated st c) (index_columns out ++ _columns out).
Proof.
  unfold gather. intros H.
  apply Py_bind_Ok_inv in H as (st1 & dt & Hdt & H).
  rewrite run_Column_dtype in Hdt. injection Hdt as <- <-.
  destruct (negb _); [discriminate|].
  apply Py_bind_Ok_inv in H as (st1 & view & Hview & H).
  apply make_table_view_Ok_inv in Hview as (-> & _ & _).
  apply Py_bind_Ok_inv in H as (st1 & map_view & Hmap & H).
  rewrite run_Column_view in Hmap. injection Hmap as <- <-.
  apply Py_bind_Ok_inv in H as (st1 & c_result & Hkernel & H).
  rewrite run_lift in Hkernel. injection Hkernel as <- _.
  by apply Table_from_unique_ptr_Ok_inv in H.
Qed.

Lemma gather_result_shape_witness :
  ∃ st' out,
    gather gather_source 1%nat gather_store = (st', Ok out)
    ∧ _column_names out = ["a"%string] ∧ _index out = None.
Proof.
  eexists _, _. split; [reflexivity|].
  destruct (gather_result_shape gather_source 1%nat gather_store _ _ eq_refl)
    as (Hnames & _ & _).
  split; [exact Hnames|reflexivity].
Defined.

(* ===================================================================== *)
(** * [scatter] with scalars: values beyond the columns *)
(* ===================================================================== *)

Lemma zip_surplus {A B} (values extra : list A) (columns : list B) :
  (length columns ≤ length values)%nat →
  zip (values ++ extra) columns = zip values columns.
Proof.
  revert columns. induction values as [|v values IH]; intros columns Hlen.
  - destruct columns; [by destruct extra|cbn in Hlen; lia].
  - destruct columns as [|c columns]; [done|]. cbn. f_equal. apply IH.
    cbn in Hlen. lia.
Qed.

(** X6. [scatter] pairs the scalars with the columns of the target and
    stops at the shorter of the two: values given beyond the number of
    target columns are ignored, the call doing exactly what it does
    without them. *)
Theorem scatter_ignores_surplus_values values extra scatter_map target
    bounds_check st :
  (length (_columns target) ≤ length values)%nat →
  scatter (from_values (values ++ extra)) scatter_map target bounds_check st
  = scatter (from_values values) scatter_map target bounds_check st.
Proof.
  intros Hlen. unfold scatter, _scatter_scalar.
  by rewrite zip_surplus.
Qed.

Lemma scatter_ignores_surplus_values_witness :
  (length (_columns scatter_target_table) ≤ length [Some 7])%nat
  ∧ scatter (from_values ([Some 7] ++ [None; Some 3])) (map_values [0; -1])
            scatter_target_table true range_store
    = (range_store ++ [mk_column_view INT64 [Some 0; Some (-1)];
                       int32_column [7; 2; 3; 4; 7]],
       Ok (mk_Table None ["a"%string] [3%nat])).
Proof.
  split; [reflexivity|].
  rewrite (scatter_ignores_surplus_values [Some 7] [None; Some 3]
             (map_values [0; -1]) scatter_target_table true range_store);
    reflexivity.
Defined.

(* ===================================================================== *)
(** * [copy_if_else]: what a call returns *)
(* ===================================================================== *)

Lemma new_column_Ok_inv (o : outcome column_view) st st' c :
  (c_result ← lift o; Column_from_unique_ptr c_result) st = (st', Ok c) →
  c = length st ∧ ∃ v, st' = st ++ [v].
Proof.
  rewrite run_bind, run_lift. destruct o as [v| |]; [|discriminate..].
  unfold Column_from_unique_ptr. intros [= <- <-]. eauto.
Qed.

Lemma _copy_if_else_column_column_Ok_inv lhs rhs boolean_mask st st' c :
  _copy_if_else_column_column lhs rhs boolean_mask st = (st', Ok c) →
  c = length st ∧ ∃ v, st' = st ++ [v].
Proof.
  unfold _copy_if_else_column_column.
  rewrite (run_bind_Ok _ _ _ _ _ (run_Column_view lhs st)).
  rewrite (run_bind_Ok _ _ _ _ _ (run_Column_view rhs st)).
  rewrite (run_bind_Ok _ _ _ _ _ (run_Column_view boolean_mask st)).
  apply new_column_Ok_inv.
Qed.

Lemma _copy_if_else_column_scalar_Ok_inv lhs rhs boolean_mask st st' c :
  _copy_if_else_column_scalar lhs rhs boolean_mask st = (st', Ok c) →
  c = length st ∧ ∃ v, st' = st ++ [v].
Proof.
  unfold _copy_if_else_column_scalar.
  rewrite (run_bind_Ok _ _ _ _ _ (run_Column_view lhs st)).
  rewrite (run_bind_Ok _ _ _ _ _ (run_Column_view boolean_mask st)).
  apply new_column_Ok_inv.
Qed.

Lemma _copy_if_else_scalar_column_Ok_inv lhs rhs boolean_mask st st' c :
  _copy_if_else_scalar_column lhs rhs boolean_mask st = (st', Ok c) →
  c = length st ∧ ∃ v, st' = st ++ [v].
Proof.
  unfold _copy_if_else_scalar_column.
  rewrite (run_bind_Ok _ _ _ _ _ (run_Column_view rhs st)).
  rewrite (run_bind_Ok _ _ _ _ _ (run_Column_view boolean_mask st)).
  apply new_column_Ok_inv.
Qed.

Lemma _copy_if_else_scalar_scalar_Ok_inv lhs rhs boolean_mask st st' c :
  _copy_if_else_scalar_scalar lhs rhs boolean_mask st = (st', Ok c) →
  c = length st ∧ ∃ v, st' = st ++ [v].
Proof.
  unfold _copy_if_else_scalar_scalar.
  rewrite (run_bind_Ok _ _ _ _ _ (run_Column_view boolean_mask st)).
  apply new_column_Ok_inv.
Qed.

Lemma Scalar_of_Ok_inv obj dt st st' s :
  Scalar_of obj dt st = (st', Ok s) → st' = st.
Proof.
  destruct obj as [c|s'|v]; cbn; [discriminate..|].
  destruct dt, v; cbn; intros [= <- _] || discriminate; done.
Qed.

(** X7. A call of [copy_if_else] that returns gives [None] only when
    both operands are [None], the store being then as before; every
    other returning call gives a column that is a new object, the one
    object added to the store. *)
Theorem copy_if_else_result lhs rhs boolean_mask st st' r :
  copy_if_else lhs rhs boolean_mask st = (st', Ok r) →
  (r = PyNone ∧ lhs = a_value None ∧ rhs = a_value None ∧ st' = st)
  ∨ (r = PyColumn (length st) ∧ ∃ v, st' = st ++ [v]).
Proof.
  assert (Hcolumn : ∀ (m : Py nat) st0,
            (∀ st1 c, m st0 = (st1, Ok c) → c = length st0 ∧ ∃ v, st1 = st0 ++ [v]) →
            (c ← m; mret (PyColumn c)) st0 = (st', Ok r) →
            r = PyColumn (length st0) ∧ ∃ v, st' = st0 ++ [v]).
  { intros m st0 Hm H. apply Py_bind_Ok_inv in H as (st1 & c & Hc & H).
    rewrite run_ret in H. injection H as <- <-.
    by destruct (Hm _ _ Hc) as [-> ?]. }
  assert (Hscalar : ∀ (column : nat) obj (k : scalar → Py pyobject),
            (∀ s, k s st = (st', Ok r) →
                  r = PyColumn (length st) ∧ ∃ v, st' = st ++ [v]) →
            (dt ← Column_dtype column; s ← Scalar_of obj (Some dt); k s) st
              = (st', Ok r) →
            r = PyColumn (length st) ∧ ∃ v, st' = st ++ [v]).
  { intros column obj k Hk H.
    rewrite (run_bind_Ok _ _ _ _ _ (run_Column_dtype column st)) in H.
    apply Py_bind_Ok_inv in H as (st1 & s & Hs & H).
    apply Scalar_of_Ok_inv in Hs as ->. by eapply Hk. }
  unfold copy_if_else. intros H.
  destruct lhs as [l|ls|lv].
  - right. destruct rhs as [rc|rs|rv].
    + revert H. apply Hcolumn. apply _copy_if_else_column_column_Ok_inv.
    + revert H. apply Hscalar. intros s. apply Hcolumn.
      apply _copy_if_else_column_scalar_Ok_inv.
    + revert H. apply Hscalar. intros s. apply Hcolumn.
      apply _copy_if_else_column_scalar_Ok_inv.
  - right. destruct rhs as [rc|rs|rv].
    + revert H. apply Hscalar. intros s. apply Hcolumn.
      apply _copy_if_else_scalar_column_Ok_inv.
    + cbn in H. discriminate.
    + cbn in H. discriminate.
  - destruct rhs as [rc|rs|rv].
    + right. revert H. apply Hscalar. intros s. apply Hcolumn.
      apply _copy_if_else_scalar_column_Ok_inv.
    + destruct lv; cbn in H; discriminate.
    + destruct lv as [x|], rv as [y|]; cbn in H; try discriminate.
      * right. revert H. apply (Hcolumn _ st).
        apply _copy_if_else_scalar_scalar_Ok_inv.
      * left. by injection H as <- <-.
Qed.

Lemma copy_if_else_result_witness :
  copy_if_else (a_column 1%nat) (a_value (Some 5)) 4%nat mask_store
    = (mask_store ++ [int32_column [11; 5; 13; 5]], Ok (PyColumn 5%nat))
  ∧ (PyColumn 5%nat = PyColumn (length mask_store)).
Proof.
  assert (Hrun : copy_if_else (a_column 1%nat) (a_value (Some 5)) 4%nat mask_store
                 = (mask_store ++ [int32_column [11; 5; 13; 5]],
                    Ok (PyColumn 5%nat))) by reflexivity.
  split; [exact Hrun|].
  destruct (copy_if_else_result _ _ _ _ _ _ Hrun) as [(H & _)|(H & _)];
    [discriminate H|exact H].
Defined.

(* ===================================================================== *)
(** * [boolean_mask_scatter]: the index of the target *)
(* ===================================================================== *)

Lemma _index_column_names_Ok_inv t st st' names :
  _index_column_names t st = (st', Ok names) → _index t ≠ None.
Proof. unfold _index_column_names. by destruct (_index t). Qed.

Lemma _boolean_mask_scatter_table_needs_index input_table target_table
    boolean_mask st st' out :
  _boolean_mask_scatter_table input_table target_table boolean_mask st
    = (st', Ok out) →
  _index target_table ≠ None.
Proof.
  unfold _boolean_mask_scatter_table. intros H.
  apply Py_bind_Ok_inv in H as (st1 & input_view & _ & H).
  apply Py_bind_Ok_inv in H as (st2 & target_view & _ & H).
  apply Py_bind_Ok_inv in H as (st3 & mask_view & _ & H).
  apply Py_bind_Ok_inv in H as (st4 & c_result & _ & H).
  apply Py_bind_Ok_inv in H as (st5 & index_names & Hnames & _).
  by eapply _index_column_names_Ok_inv.
Qed.

Lemma _boolean_mask_scatter_scalar_needs_index input_scalars target_table
    boolean_mask st st' out :
  _boolean_mask_scatter_scalar input_scalars target_table boolean_mask st
    = (st', Ok out) →
  _index target_table ≠ None.
Proof.
  unfold _boolean_mask_scatter_scalar. intros H.
  apply Py_bind_Ok_inv in H as (st2 & target_view & _ & H).
  apply Py_bind_Ok_inv in H as (st3 & mask_view & _ & H).
  apply Py_bind_Ok_inv in H as (st4 & c_result & _ & H).
  apply Py_bind_Ok_inv in H as (st5 & index_names & Hnames & _).
  by eapply _index_column_names_Ok_inv.
Qed.

(** X8. The helpers of [boolean_mask_scatter] read the index names off
    [target_table._index] without the test for [None] that [gather] and
    [scatter] make: neither helper, and so no call of
    [boolean_mask_scatter], returns for a target table without an
    index. *)
Theorem boolean_mask_scatter_needs_index :
  (∀ input_table target_table boolean_mask st st' out,
     _boolean_mask_scatter_table input_table target_table boolean_mask st
       = (st', Ok out) →
     _index target_table ≠ None)
  ∧ (∀ input_scalars target_table boolean_mask st st' out,
       _boolean_mask_scatter_scalar input_scalars target_table boolean_mask st
         = (st', Ok out) →
       _index target_table ≠ None)
  ∧ (∀ input target_table boolean_mask st st' r,
       boolean_mask_scatter input target_table boolean_mask st = (st', Ok r) →
       _index target_table ≠ None).
Proof.
  split; [apply _boolean_mask_scatter_table_needs_index|].
  split; [apply _boolean_mask_scatter_scalar_needs_index|].
  intros input target_table boolean_mask st st' r. unfold boolean_mask_scatter.
  destruct input as [t|values]; intros H.
  - apply Py_bind_Ok_inv in H as (st1 & out & Hhelper & _).
    by eapply _boolean_mask_scatter_table_needs_index.
  - apply Py_bind_Ok_inv in H as (st1 & scalars & _ & H).
    apply Py_bind_Ok_inv in H as (st2 & out & Hhelper & _).
    by eapply _boolean_mask_scatter_scalar_needs_index.
Qed.

Lemma boolean_mask_scatter_needs_index_witness :
  boolean_mask_scatter (from_table mask_input) mask_target 4%nat mask_store
    = (mask_store ++ [int32_column [0; 1; 2; 3];
                      int32_column [101; 12; 102; 14]],
       Ok PyNone)
  ∧ _index mask_target ≠ None.
Proof.
  assert (Hrun :
    boolean_mask_scatter (from_table mask_input) mask_target 4%nat mask_store
    = (mask_store ++ [int32_column [0; 1; 2; 3];
                      int32_column [101; 12; 102; 14]],
       Ok PyNone)) by reflexivity.
  split; [exact Hrun|].
  exact (proj2 (proj2 boolean_mask_scatter_needs_index) _ _ _ _ _ _ Hrun).
Defined.

(* ===================================================================== *)
(** * [copy_column]: the copy stands alone *)
(* ===================================================================== *)

(** X9. [copy_column] returns a new object whose storage equals that of
    the input, and the two are independent afterwards: an in-place
    [copy_range] into the copy leaves the input as it was, and one into
    the input leaves the copy as it was, whatever is written. *)
Theorem copy_column_stands_alone st input_column :
  allocated st input_column →
  let copy := length st in
  let st1 := st ++ [st !!! input_column] in
  copy_column input_column st = (st1, Ok copy)
  ∧ st1 !!! copy = st !!! input_column
  ∧ (∀ source input_begin input_end target_begin target_end,
       (copy_range source copy input_begin input_end target_begin target_end
                   true st1).1 !!! input_column
       = st !!! input_column)
  ∧ (∀ source input_begin input_end target_begin target_end,
       (copy_range source input_column input_begin input_end target_begin
                   target_end true st1).1 !!! copy
       = st !!! input_column).
Proof.
  intros Halloc. cbv zeta. unfold allocated in Halloc.
  assert (Hcopy : (st ++ [st !!! input_column]) !!! length st
                  = st !!! input_column)
    by (by apply list_lookup_total_middle).
  assert (Hinput : (st ++ [st !!! input_column]) !!! input_column
                   = st !!! input_column)
    by (by apply lookup_total_app_l).
  split; [reflexivity|]. split; [exact Hcopy|]. split.
  - intros source input_begin input_end target_begin target_end.
    destruct (keeps_copy_range_in_place source (length st) input_begin
                input_end target_begin target_end
                (st ++ [st !!! input_column])) as [_ Hothers].
    rewrite Hothers by lia. exact Hinput.
  - intros source input_begin input_end target_begin target_end.
    destruct (keeps_copy_range_in_place source input_column input_begin
                input_end target_begin target_end
                (st ++ [st !!! input_column])) as [_ Hothers].
    rewrite Hothers by lia. exact Hcopy.
Qed.

Lemma copy_column_stands_alone_witness :
  allocated range_store 0%nat
  ∧ copy_column 0%nat range_store
    = (range_store ++ [int32_column [1; 2; 3; 4; 5]], Ok 2%nat)
  ∧ (copy_range 1%nat 2%nat 0 2 0 2 true
                (range_store ++ [int32_column [1; 2; 3; 4; 5]])).1 !!! 0%nat
    = int32_column [1; 2; 3; 4; 5].
Proof.
  assert (Halloc : allocated range_store 0%nat) by (unfold allocated; cbn; lia).
  destruct (copy_column_stands_alone range_store 0%nat Halloc)
    as (Hcopy & _ & Hinput & _).
  split; [exact Halloc|]. split; [exact Hcopy|].
  exact (Hinput 1%nat 0 2 0 2).
Defined.

(* ===================================================================== *)
(** * The error utilities: what [check_stream] reports, and the texts *)
(* ===================================================================== *)

Section error_utilities.
Variable cudaGetErrorName : cudaError_t → string.
Variable cudaGetErrorString : cudaError_t → string.
Variable runtime : Type.
Variable cudaStreamSynchronize : nat → runtime → runtime * cudaError_t.
Variable cudaGetLastError : runtime → runtime * cudaError_t.

Lemma check_stream_Ok_inv stream file line rt rt' events :
  check_stream cudaGetErrorName cudaGetErrorString runtime
               cudaStreamSynchronize cudaGetLastError stream file line rt
    = (rt', events, Ok tt) →
  ∃ rt1, cudaStreamSynchronize stream rt = (rt1, cudaSuccess)
         ∧ cudaGetLastError rt1 = (rt', cudaSuccess)
         ∧ events = [StreamSynchronize stream; GetLastError].
Proof.
  unfold check_stream, throw_cuda_error.
  destruct (cudaStreamSynchronize stream rt) as [rt1 error1].
  destruct (Z.eqb_spec cudaSuccess error1) as [<-|Hne1]; cbv [negb];
    [|discriminate].
  destruct (cudaGetLastError rt1) as [rt2 error2] eqn:Hlast.
  destruct (Z.eqb_spec cudaSuccess error2) as [<-|Hne2]; cbv [negb];
    [|discriminate].
  intros [= <- <-]. by exists rt1.
Qed.

(** X10. [check_stream] passes exactly when the synchronization of the
    stream and then the query of the last error both report
    [cudaSuccess]; a fault reported by the synchronization is raised at
    once, the last error being left unqueried in the runtime; and
    [CHECK_STREAM] raises nothing and asks nothing of the runtime in a
    release build ([NDEBUG]), whatever is pending there. *)
Theorem check_stream_reports stream file line rt :
  (∀ rt' events,
     check_stream cudaGetErrorName cudaGetErrorString runtime
                  cudaStreamSynchronize cudaGetLastError stream file line rt
       = (rt', events, Ok tt)
     ↔ ∃ rt1, cudaStreamSynchronize stream rt = (rt1, cudaSuccess)
              ∧ cudaGetLastError rt1 = (rt', cudaSuccess)
              ∧ events = [StreamSynchronize stream; GetLastError])
  ∧ (∀ rt1 error,
       cudaStreamSynchronize stream rt = (rt1, error) → error ≠ cudaSuccess →
       check_stream cudaGetErrorName cudaGetErrorString runtime
                    cudaStreamSynchronize cudaGetLastError stream file line rt
       = (rt1, [StreamSynchronize stream],
          Raise (cuda_error
                   (cuda_error_message cudaGetErrorName cudaGetErrorString
                                       error file line))))
  ∧ (∀ NDEBUG rt' events e,
       CHECK_STREAM cudaGetErrorName cudaGetErrorString runtime
                    cudaStreamSynchronize cudaGetLastError
                    NDEBUG stream file line rt = (rt', events, Raise e) →
       NDEBUG = false).
Proof.
  split; [|split].
  - intros rt' events. split; [apply check_stream_Ok_inv|].
    intros (rt1 & Hsync & Hlast & ->). unfold check_stream.
    rewrite Hsync. cbn. by rewrite Hlast.
  - intros rt1 error Hsync Herror. unfold check_stream, throw_cuda_error.
    rewrite Hsync.
    by destruct (Z.eqb_spec cudaSuccess error) as [Heq|Hne]; cbv [negb].
  - intros NDEBUG rt' events e. unfold CHECK_STREAM.
    by destruct NDEBUG.
Qed.

Lemma texts_differ file line reason error file' line' :
  logic_error_message file line reason
  ≠ cuda_error_message cudaGetErrorName cudaGetErrorString error file' line'.
Proof. unfold logic_error_message, cuda_error_message. cbn. discriminate. Qed.

Lemma run_macro_Raise_inv m rt rt' events e :
  run_macro cudaGetErrorName cudaGetErrorString runtime
            cudaStreamSynchronize cudaGetLastError m rt
    = (rt', events, Raise e) →
  (∃ file line reason, e = logic_error (logic_error_message file line reason))
  ∨ (∃ error file line,
       e = cuda_error (cuda_error_message cudaGetErrorName cudaGetErrorString
                                          error file line)).
Proof.
  destruct m as [file line cond reason|file line status|file line stream]; cbn.
  - intros [= _ _ Hraise]. left.
    apply CUDF_EXPECTS_Raise_inv in Hraise as [_ ->]. eauto.
  - destruct (CUDA_TRY _ _ _ _ _) as [events' o] eqn:Htry.
    intros [= _ _ ->]. right.
    apply CUDA_TRY_Raise_inv in Htry as (_ & _ & ->). eauto.
  - intros Hcheck. right.
    apply check_stream_Raise_inv in Hcheck as (error & _ & -> & _). eauto.
Qed.

(** X11. The text of an error tells its class: two failures raised by
    the error utilities with the same [what()] text are both logic
    errors or both device errors, the texts of the two classes opening
    with different words; so a logic error and a device error never
    carry the same text, whatever the files, lines, reasons and faults
    are. *)
Theorem error_text_tells_class m1 m2 rt1 rt2 rt1' rt2' events1 events2 e1 e2 :
  run_macro cudaGetErrorName cudaGetErrorString runtime
            cudaStreamSynchronize cudaGetLastError m1 rt1
    = (rt1', events1, Raise e1) →
  run_macro cudaGetErrorName cudaGetErrorString runtime
            cudaStreamSynchronize cudaGetLastError m2 rt2
    = (rt2', events2, Raise e2) →
  (what e1 = what e2 →
   is_logic_error e1 = is_logic_error e2 ∧ is_cuda_error e1 = is_cuda_error e2)
  ∧ (is_logic_error e1 = true → is_cuda_error e2 = true → what e1 ≠ what e2).
Proof.
  intros H1 H2.
  apply run_macro_Raise_inv in H1 as [(f1 & l1 & r1 & ->)|(c1 & f1 & l1 & ->)];
    apply run_macro_Raise_inv in H2 as [(f2 & l2 & r2 & ->)|(c2 & f2 & l2 & ->)];
    cbn [what is_logic_error is_cuda_error].
  - split; [done|discriminate].
  - split; [|intros _ _]; intros Htext; by apply texts_differ in Htext.
  - split; [|discriminate].
    intros Htext. symmetry in Htext. by apply texts_differ in Htext.
  - split; [done|discriminate].
Qed.
End error_utilities.

Lemma check_stream_reports_witness :
  example_synchronize 0%nat 700 = (cudaSuccess, 700)
  ∧ check_stream example_error_name example_error_string cudaError_t
                 example_synchronize example_last_error
                 0%nat "copying.cu" 57 700
    = (cudaSuccess, [StreamSynchronize 0%nat],
       Raise (cuda_error
                "CUDA error encountered at: copying.cu:57: 700 cudaErrorIllegalAddress an illegal memory access was encountered")).
Proof.
  split; [reflexivity|].
  destruct (check_stream_reports example_error_name example_error_string
              cudaError_t example_synchronize example_last_error
              0%nat "copying.cu" 57 700) as (_ & Hfault & _).
  rewrite (Hfault cudaSuccess 700 eq_refl); [reflexivity|discriminate].
Defined.

Lemma error_text_tells_class_witness :
  run_macro example_error_name example_error_string cudaError_t
            example_synchronize example_last_error
            (expects_at "copying.cu" 42 false "Column type mismatch") 0
  = (0, [],
     Raise (logic_error "cuDF failure at: copying.cu:42: Column type mismatch"))
  ∧ run_macro example_error_name example_error_string cudaError_t
              example_synchronize example_last_error
              (cuda_try_at "copying.cu" 10 2) 0
    = (0, [],
       Raise (cuda_error
                "CUDA error encountered at: copying.cu:10: 2 cudaErrorMemoryAllocation out of memory"))
  ∧ what (logic_error "cuDF failure at: copying.cu:42: Column type mismatch")
    ≠ what (cuda_error
              "CUDA error encountered at: copying.cu:10: 2 cudaErrorMemoryAllocation out of memory").
Proof.
  split; [reflexivity|]. split; [reflexivity|].
  refine (proj2 (error_text_tells_class example_error_name example_error_string
                   cudaError_t example_synchronize example_last_error
                   (expects_at "copying.cu" 42 false "Column type mismatch")
                   (cuda_try_at "copying.cu" 10 2)
                   0 0 _ _ _ _ _ _ eq_refl eq_refl) eq_refl eq_refl).
Defined.

(* ===================================================================== *)
(** * Views, partitions and empty copies *)
(* ===================================================================== *)

Lemma run_push_back_all_Ok indices st :
  Forall (λ index, in_size_type index = true) indices →
  push_back_all indices st = (st, Ok indices).
Proof.
  unfold push_back_all. induction 1 as [|index indices Hfit _ IH];
    [reflexivity|].
  cbn [for_each].
  rewrite (run_bind_Ok _ _ st st index)
    by (unfold to_int; by rewrite run_lift, to_size_type_Ok).
  by rewrite (run_bind_Ok _ _ _ _ _ IH).
Qed.

Lemma run_push_back_all_Raise indices st :
  Exists (λ index, in_size_type index = false) indices →
  push_back_all indices st = (st, Raise (py_error OverflowError)).
Proof.
  unfold push_back_all. induction 1 as [index indices Hbad|index indices _ IH];
    cbn [for_each].
  - unfold to_int. by rewrite run_bind, run_lift, to_size_type_Raise.
  - destruct (in_size_type index) eqn:Hfit.
    + rewrite (run_bind_Ok _ _ st st index)
        by (unfold to_int; by rewrite run_lift, to_size_type_Ok).
      by rewrite run_bind, IH.
    + unfold to_int. by rewrite run_bind, run_lift, to_size_type_Raise.
Qed.

(** A loop whose body reads the index names of a table without index
    ends well only when it does not run. *)
Lemma for_each_index_names_Ok_inv {A B} (t : Table)
    (k : A → list string → Py B) (l : list A) st st' r :
  _index t = None →
  for_each (λ a, index_names ← _index_column_names t; k a index_names) l st
    = (st', Ok r) →
  l = [] ∧ r = [] ∧ st' = st.
Proof.
  intros Hindex. destruct l as [|a l]; cbn [for_each].
  - rewrite run_ret. by intros [= <- <-].
  - intros H. apply Py_bind_Ok_inv in H as (st1 & b & Hb & _).
    apply Py_bind_Ok_inv in Hb as (st2 & names & Hnames & _).
    by apply _index_column_names_Ok_inv in Hnames.
Qed.

Section views_and_partitions_properties.
Variable cpp_slice_column : column_view → list Z → outcome (list column_view).
Variable cpp_slice_table : table_view → list Z → outcome (list table_view).
Variable cpp_split_column : column_view → list Z → outcome (list column_view).
Variable cpp_split_table : table_view → list Z → outcome (list table_view).
Variable cpp_scatter_to_tables :
  table_view → column_view → outcome (list table_view).
Variable cpp_empty_like_table : table_view → outcome table_view.
Variable cpp_allocate_like : column_view → option Z → outcome column_view.
Variable Column_from_column_view : column_view → Column → Py Column.
Variable Table_from_table_view :
  table_view → Table → list string → list string → Py Table.

(** X12. The table bindings that read [_index._column_names] unguarded
    cannot hand back a table made from a table without an index:
    [table_empty_like] never returns for one, and [table_slice],
    [table_split] and [scatter_to_tables], which read the names once per
    result, return only when the kernel gave no result at all, the list
    returned being empty and the store as before.  This holds whatever
    the kernels compute. *)
Theorem tables_without_index input_table st :
  _index input_table = None →
  (∀ st' r, table_empty_like cpp_empty_like_table input_table st ≠ (st', Ok r))
  ∧ (∀ indices st' r,
       table_slice cpp_slice_table Table_from_table_view input_table indices st
         = (st', Ok r) →
       r = [] ∧ st' = st)
  ∧ (∀ splits st' r,
       table_split cpp_split_table Table_from_table_view input_table splits st
         = (st', Ok r) →
       r = [] ∧ st' = st)
  ∧ (∀ partition_map st' r,
       scatter_to_tables cpp_scatter_to_tables input_table partition_map st
         = (st', Ok r) →
       r = [] ∧ st' = st).
Proof.
  intros Hindex. split; [|split; [|split]].
  - intros st' r H. unfold table_empty_like in H.
    apply Py_bind_Ok_inv in H as (st1 & view & _ & H).
    apply Py_bind_Ok_inv in H as (st2 & c_result & _ & H).
    apply Py_bind_Ok_inv in H as (st3 & names & Hnames & _).
    by apply _index_column_names_Ok_inv in Hnames.
  - intros indices st' r H. unfold table_slice, Table_view in H.
    apply Py_bind_Ok_inv in H as (st1 & view & Hview & H).
    apply make_table_view_Ok_inv in Hview as (-> & _ & _).
    apply Py_bind_Ok_inv in H as (st1 & c_indices & Hindices & H).
    assert (st1 = st) as ->.
    { destruct (decide (Forall (λ i, in_size_type i = true) indices)) as [Hfit|Hbad].
      - rewrite run_push_back_all_Ok in Hindices by done. by injection Hindices.
      - rewrite run_push_back_all_Raise in Hindices; [done|].
        apply not_Forall_Exists in Hbad; [|apply _].
        eapply Exists_impl; [exact Hbad|]. intros i Hi. cbn in Hi.
        by destruct (in_size_type i). }
    apply Py_bind_Ok_inv in H as (st1 & c_result & Hkernel & H).
    rewrite run_lift in Hkernel. injection Hkernel as <- _.
    by apply for_each_index_names_Ok_inv in H as (_ & -> & ->).
  - intros splits st' r H. unfold table_split, Table_view in H.
    apply Py_bind_Ok_inv in H as (st1 & view & Hview & H).
    apply make_table_view_Ok_inv in Hview as (-> & _ & _).
    apply Py_bind_Ok_inv in H as (st1 & c_splits & Hsplits & H).
    assert (st1 = st) as ->.
    { destruct (decide (Forall (λ i, in_size_type i = true) splits)) as [Hfit|Hbad].
      - rewrite run_push_back_all_Ok in Hsplits by done. by injection Hsplits.
      - rewrite run_push_back_all_Raise in Hsplits; [done|].
        apply not_Forall_Exists in Hbad; [|apply _].
        eapply Exists_impl; [exact Hbad|]. intros i Hi. cbn in Hi.
        by destruct (in_size_type i). }
    apply Py_bind_Ok_inv in H as (st1 & c_result & Hkernel & H).
    rewrite run_lift in Hkernel. injection Hkernel as <- _.
    by apply for_each_index_names_Ok_inv in H as (_ & -> & ->).
  - intros partition_map st' r H. unfold scatter_to_tables, Table_view in H.
    apply Py_bind_Ok_inv in H as (st1 & view & Hview & H).
    apply make_table_view_Ok_inv in Hview as (-> & _ & _).
    apply Py_bind_Ok_inv in H as (st1 & map_view & Hmap & H).
    rewrite run_Column_view in Hmap. injection Hmap as <- _.
    apply Py_bind_Ok_inv in H as (st1 & c_result & Hkernel & H).
    rewrite run_lift in Hkernel. injection Hkernel as <- _.
    by apply for_each_index_names_Ok_inv in H as (_ & -> & ->).
Qed.

(** X13. The indices of a slice and the points of a split are stored in
    C [int] variables, and the size given to [column_allocate_like] in a
    [size_type]: when one of them does not fit in 32 bits the call
    raises [OverflowError], the store is as before and the kernel has no
    say (for a table, once its columns share their row count). *)
Theorem view_bounds_must_fit st :
  (∀ input_column indices,
     Exists (λ index, in_size_type index = false) indices →
     column_slice cpp_slice_column Column_from_column_view input_column indices st
       = (st, Raise (py_error OverflowError))
     ∧ column_split cpp_split_column Column_from_column_view input_column
                    indices st
       = (st, Raise (py_error OverflowError)))
  ∧ (∀ input_table indices,
       same_row_count (read_table st input_table) = true →
       Exists (λ index, in_size_type index = false) indices →
       table_slice cpp_slice_table Table_from_table_view input_table indices st
         = (st, Raise (py_error OverflowError))
       ∧ table_split cpp_split_table Table_from_table_view input_table
                     indices st
         = (st, Raise (py_error OverflowError)))
  ∧ (∀ input_column size,
       in_size_type size = false →
       column_allocate_like cpp_allocate_like input_column (Some size) st
       = (st, Raise (py_error OverflowError))).
Proof.
  split; [|split].
  - intros input_column indices Hbad. unfold column_slice, column_split.
    rewrite !(run_bind_Ok _ _ _ _ _ (run_Column_view input_column st)).
    by rewrite !run_bind, !run_push_back_all_Raise.
  - intros input_table indices Hrows Hbad.
    unfold table_slice, table_split, Table_view.
    rewrite !(run_bind_Ok _ _ _ _ _ (run_make_table_view _ st Hrows)).
    by rewrite !run_bind, !run_push_back_all_Raise.
  - intros input_column size Hbad. unfold column_allocate_like.
    rewrite (run_bind_Ok _ _ _ _ _ (run_Column_view input_column st)).
    by rewrite run_bind, run_lift, to_size_type_Raise.
Qed.
End views_and_partitions_properties.

Lemma tables_without_index_witness :
  _index scatter_target_table = None
  ∧ ∃ st' r,
      table_slice (λ _ _, Ok []) (λ _ t _ _, mret t) scatter_target_table
                  [0; 2] range_store
        = (st', Ok r)
      ∧ r = [] ∧ st' = range_store.
Proof.
  split; [reflexivity|].
  destruct (tables_without_index (λ _ _, Ok []) (λ _ _, Ok []) (λ _ _, Ok [])
              (λ t, Ok t) (λ _ t _ _, mret t) scatter_target_table range_store
              eq_refl) as (_ & Hslice & _).
  eexists _, _. split; [reflexivity|].
  apply (Hslice [0; 2]). reflexivity.
Defined.

Lemma view_bounds_must_fit_witness :
  Exists (λ index, in_size_type index = false) [0; 2 ^ 31]
  ∧ column_slice (λ v _, Ok [v]) (λ v _, Column_from_unique_ptr v)
                 0%nat [0; 2 ^ 31] range_store
    = (range_store, Raise (py_error OverflowError)).
Proof.
  assert (Hbad : Exists (λ index, in_size_type index = false) [0; 2 ^ 31])
    by (apply Exists_cons_tl, Exists_cons_hd; reflexivity).
  split; [exact Hbad|].
  destruct (view_bounds_must_fit (λ v _, Ok [v]) (λ _ _, Ok [])
              (λ v _, Ok [v]) (λ _ _, Ok []) (λ v _, Ok v)
              (λ v _, Column_from_unique_ptr v) (λ _ t _ _, mret t)
              range_store) as (Hcolumn & _).
  exact (proj1 (Hcolumn 0%nat [0; 2 ^ 31] Hbad)).
Defined.

Section empty_copies.
Variable cpp_scatter_to_tables :
  table_view → column_view → outcome (list table_view).
Variable cpp_empty_like_column : column_view → outcome column_view.
Variable cpp_empty_like_table : table_view → outcome table_view.
Variable cpp_allocate_like : column_view → option Z → outcome column_view.

End empty_copies.

(* ===================================================================== *)
(** * [copy_range] out of place: which object comes back *)
(* ===================================================================== *)

Lemma to_size_type_Ok_inv z st st' a :
  lift (to_size_type z) st = (st', Ok a) → st' = st ∧ a = z.
Proof.
  rewrite run_lift. unfold to_size_type.
  destruct (in_size_type z); [|discriminate]. by intros [= <- <-].
Qed.

Lemma normalize_bound_Ok_inv bound target_column st st' a :
  normalize_bound bound target_column st = (st', Ok a) → st' = st.
Proof.
  unfold normalize_bound. destruct (bound <? 0).
  - rewrite (run_bind_Ok _ _ _ _ _ (run_Column_size target_column st)).
    intros H. by apply to_size_type_Ok_inv in H as [-> _].
  - rewrite run_ret. by intros [= <- _].
Qed.

Lemma _copy_range_Ok_inv input_column target_column input_begin input_end
    target_begin st st' c :
  _copy_range input_column target_column input_begin input_end target_begin st
    = (st', Ok c) →
  c = length st ∧ ∃ v, st' = st ++ [v].
Proof.
  unfold _copy_range. intros H.
  apply Py_bind_Ok_inv in H as (st1 & ib & Hib & H).
  apply to_size_type_Ok_inv in Hib as [-> _].
  apply Py_bind_Ok_inv in H as (st1 & ie & Hie & H).
  apply to_size_type_Ok_inv in Hie as [-> _].
  apply Py_bind_Ok_inv in H as (st1 & tb & Htb & H).
  apply to_size_type_Ok_inv in Htb as [-> _].
  rewrite (run_bind_Ok _ _ _ _ _ (run_Column_view input_column st)) in H.
  rewrite (run_bind_Ok _ _ _ _ _ (run_Column_view target_column st)) in H.
  by apply new_column_Ok_inv in H.
Qed.

(** X15. An out-of-place [copy_range] that returns gives back either the
    target object itself, the store being as before (the no-op paths),
    or a new object, the one object added to the store: it never returns
    another existing object, and never [None]. *)
Theorem copy_range_out_of_place_result input_column target_column
    input_begin input_end target_begin target_end st st' r :
  copy_range input_column target_column input_begin input_end
             target_begin target_end false st = (st', Ok r) →
  (r = PyColumn target_column ∧ st' = st)
  ∨ (r = PyColumn (length st) ∧ ∃ v, st' = st ++ [v]).
Proof.
  unfold copy_range. intros H.
  apply Py_bind_Ok_inv in H as (st1 & ib & Hib & H).
  apply to_size_type_Ok_inv in Hib as [-> _].
  apply Py_bind_Ok_inv in H as (st1 & ie & Hie & H).
  apply to_size_type_Ok_inv in Hie as [-> _].
  apply Py_bind_Ok_inv in H as (st1 & tb & Htb & H).
  apply to_size_type_Ok_inv in Htb as [-> _].
  apply Py_bind_Ok_inv in H as (st1 & te & Hte & H).
  apply to_size_type_Ok_inv in Hte as [-> _].
  destruct (span_at_most_one tb te).
  { rewrite run_ret in H. injection H as <- <-. by left. }
  apply Py_bind_Ok_inv in H as (st1 & tb' & Htb' & H).
  apply normalize_bound_Ok_inv in Htb' as ->.
  apply Py_bind_Ok_inv in H as (st1 & te' & Hte' & H).
  apply normalize_bound_Ok_inv in Hte' as ->.
  destruct (tb' >? te').
  { rewrite run_ret in H. injection H as <- <-. by left. }
  apply Py_bind_Ok_inv in H as (st1 & c & Hc & H).
  rewrite run_ret in H. injection H as <- <-.
  apply _copy_range_Ok_inv in Hc as [-> ?]. by right.
Qed.

Lemma copy_range_out_of_place_result_witness :
  copy_range 1%nat 0%nat 0 2 0 2 false range_store
    = (range_store ++ [int32_column [9; 8; 3; 4; 5]], Ok (PyColumn 2%nat))
  ∧ PyColumn 2%nat = PyColumn (length range_store).
Proof.
  assert (Hrun : copy_range 1%nat 0%nat 0 2 0 2 false range_store
                 = (range_store ++ [int32_column [9; 8; 3; 4; 5]],
                    Ok (PyColumn 2%nat))) by reflexivity.
  split; [exact Hrun|].
  destruct (copy_range_out_of_place_result _ _ _ _ _ _ _ _ _ Hrun)
    as [(H & _)|(H & _)]; [discriminate H|exact H].
Defined.
